(** * Inventory ledger and costed valuation (InventoryContext.tsx)

    A shallow embedding of the stock and valuation functions of
    [src/contexts/InventoryContext.tsx]: [getProductStock],
    [getLowStockProducts], [getProductTransactions], [addTransaction] and
    [calculateInventoryCost] with its three costing methods.

    Conventions of the embedding.
    - A TypeScript [number] is read twice.  The main development takes it as
      an exact rational ([Q], equality [Qeq], written [==]); its theorems
      are stated so that they do not depend on rounding: they relate a
      result to the code's own operations, or they are restricted to whole
      numbers below 2^53, on which the sums, differences and products of
      IEEE doubles are exact.  Module [Binary64] runs the same functions on
      IEEE binary64 numbers and shows, on decimal inputs, where rounding
      separates the code from exact arithmetic.  [NaN] and the infinities
      are outside both readings.
    - The React state ([transactions], [products]) is passed explicitly.
    - [new Date(s).getTime()] is a parameter [getTime : string -> option Z];
      [None] stands for an invalid date, whose time value is [NaN].
    - A thrown [Error] is the left injection of a sum. *)

From Stdlib Require Import List String Ascii ZArith QArith Qminmax Bool.
From Stdlib Require Import Permutation Sorted Lia Lra Psatz.
From Stdlib Require Import Qround Qabs.
From Stdlib Require Floats.PrimFloat.
Import ListNotations.

Open Scope Q_scope.

(** ** Data model *)

Inductive TransactionType : Set := entry | exit.

Record InventoryTransaction : Set := mkTransaction {
  id : string;
  productId : string;
  type : TransactionType;
  quantity : Q;
  unitCost : Q;
  date : string;
  notes : string
}.

(** [Omit<InventoryTransaction, 'id'>], the argument of [addTransaction]. *)
Module Draft.
Record t : Set := mk {
  productId : string;
  type : TransactionType;
  quantity : Q;
  unitCost : Q;
  date : string;
  notes : string
}.
End Draft.

Module Product.
Record t : Set := mk {
  id : string;
  name : string;
  description : string;
  categoryId : string;
  sku : string;
  minStock : Q;
  image : string;
  price : Q;
  barcode : option string
}.
End Product.

Inductive InventoryMethod : Set := UEPS | PEPS | weighted.

(** The object returned by [calculateInventoryCost]. *)
Record CostBreakdown : Set := mkBreakdown {
  entries : list InventoryTransaction;
  exits : list InventoryTransaction;
  remainingStock : Q;
  totalCost : Q;
  averageCost : Q
}.

(** ** Numbers and dates *)

(** [a < b] on numbers, as a boolean. *)
Definition Qltb (a b : Q) : bool := negb (Qle_bool b a).

(** [a >= b] and [a <= b] on time values; a comparison with [NaN] is false. *)
Definition time_geb (a b : option Z) : bool :=
  match a, b with
  | Some x, Some y => (y <=? x)%Z
  | _, _ => false
  end.

Definition time_leb (a b : option Z) : bool :=
  match a, b with
  | Some x, Some y => (x <=? y)%Z
  | _, _ => false
  end.

(** [a - b] on time values; [NaN] is absorbing. *)
Definition time_sub (a b : option Z) : option Z :=
  match a, b with
  | Some x, Some y => Some (x - y)%Z
  | _, _ => None
  end.

(** ** Array.prototype.sort

    The sort is stable, and a comparator result that is [NaN] counts as
    [+0].  [insert cmp x l] puts [x], which stood before every element of
    [l], in front of the first [y] for which [cmp x y > 0] fails. *)

Section Sort.
Context {A : Type} (cmp : A -> A -> option Z).

Definition cmp_pos (x y : A) : bool :=
  match cmp x y with
  | Some d => (0 <? d)%Z
  | None => false
  end.

Fixpoint insert (x : A) (l : list A) : list A :=
  match l with
  | [] => [x]
  | y :: l' => if cmp_pos x y then y :: insert x l' else x :: l
  end.

Fixpoint sort (l : list A) : list A :=
  match l with
  | [] => []
  | x :: l' => insert x (sort l')
  end.
End Sort.

(** ** A concrete clock for the sample ledgers

    [isoTime] reads the date-only ISO form [YYYY-MM-DD] of a calendar day as
    UTC midnight, in milliseconds since the epoch, as [new Date] does.  It
    is a clock for the samples only, which are all of this form: the other
    forms that [new Date] accepts (date-times, days that roll over into the
    next month) are not covered and read as [None] here. *)

Definition digit (c : ascii) : option Z :=
  let n := Z.of_nat (nat_of_ascii c) in
  if ((48 <=? n) && (n <=? 57))%Z then Some (n - 48)%Z else None.

Fixpoint digits (acc : Z) (cs : list ascii) : option Z :=
  match cs with
  | [] => Some acc
  | c :: cs' =>
      match digit c with
      | Some d => digits (10 * acc + d)%Z cs'
      | None => None
      end
  end.

Definition isLeap (y : Z) : bool :=
  ((y mod 4 =? 0) && (negb (y mod 100 =? 0) || (y mod 400 =? 0)))%Z.

Definition daysInMonth (y m : Z) : Z :=
  (if m =? 2 then (if isLeap y then 29 else 28)
   else if (m =? 4) || (m =? 6) || (m =? 9) || (m =? 11) then 30
   else 31)%Z.

(** Days between 1970-01-01 and the civil date [y]-[m]-[d]. *)
Definition daysFromCivil (y m d : Z) : Z :=
  (let y' := if m <=? 2 then y - 1 else y in
   let era := y' / 400 in
   let yoe := y' - era * 400 in
   let mp := if 2 <? m then m - 3 else m + 9 in
   let doy := (153 * mp + 2) / 5 + d - 1 in
   let doe := yoe * 365 + yoe / 4 - yoe / 100 + doy in
   era * 146097 + doe - 719468)%Z.

Definition isoTime (s : string) : option Z :=
  match list_ascii_of_string s with
  | [y1; y2; y3; y4; "-"%char; m1; m2; "-"%char; d1; d2] =>
      match digits 0 [y1; y2; y3; y4], digits 0 [m1; m2], digits 0 [d1; d2] with
      | Some y, Some m, Some d =>
          if ((1 <=? m) && (m <=? 12) && (1 <=? d) && (d <=? daysInMonth y m))%Z
          then Some (daysFromCivil y m d * 86400000)%Z
          else None
      | _, _, _ => None
      end
  | _ => None
  end.

(** ** The provider's functions *)

Section Inventory.
(** [getTime s] is [new Date(s).getTime()]. *)
Variable getTime : string -> option Z.

(** *** getProductStock *)

Definition stockStep (stock : Q) (transaction : InventoryTransaction) : Q :=
  match type transaction with
  | entry => stock + quantity transaction
  | exit => stock - quantity transaction
  end.

Definition getProductStock (transactions : list InventoryTransaction)
    (pid : string) : Q :=
  let productTransactions :=
    filter (fun t => String.eqb (productId t) pid) transactions in
  fold_left stockStep productTransactions 0.

(** *** getLowStockProducts *)

Definition getLowStockProducts (products : list Product.t)
    (transactions : list InventoryTransaction) : list Product.t :=
  filter (fun product =>
            let stock := getProductStock transactions (Product.id product) in
            Qle_bool stock (Product.minStock product))
         products.

(** *** addTransaction

    [newId] is the value of [uuidv4()].  The result is the thrown error,
    or the list handed to [setTransactions]. *)

Definition newTransaction (newId : string) (transaction : Draft.t)
    : InventoryTransaction :=
  {| id := newId;
     productId := Draft.productId transaction;
     type := Draft.type transaction;
     quantity := Draft.quantity transaction;
     unitCost := Draft.unitCost transaction;
     date := Draft.date transaction;
     notes := Draft.notes transaction |}.

Definition notEnoughStock : string := "Not enough stock for this transaction".

Definition addTransaction (transactions : list InventoryTransaction)
    (newId : string) (transaction : Draft.t)
    : string + list InventoryTransaction :=
  let rejected :=
    match Draft.type transaction with
    | exit =>
        let currentStock :=
          getProductStock transactions (Draft.productId transaction) in
        Qltb currentStock (Draft.quantity transaction)
    | entry => false
    end in
  if rejected then inl notEnoughStock
  else inr (transactions ++ [newTransaction newId transaction]).

(** *** getProductTransactions *)

Definition inDateRange (startDate endDate : string)
    (t : InventoryTransaction) : bool :=
  let start := getTime startDate in
  let end_ := getTime endDate in
  let transactionDate := getTime (date t) in
  time_geb transactionDate start && time_leb transactionDate end_.

Definition getProductTransactions (transactions : list InventoryTransaction)
    (pid startDate endDate : string) : list InventoryTransaction :=
  filter (fun t => String.eqb (productId t) pid
                   && inDateRange startDate endDate t)
         transactions.

(** *** calculateInventoryCost *)

Definition isEntry (t : InventoryTransaction) : bool :=
  match type t with entry => true | exit => false end.

Definition isExit (t : InventoryTransaction) : bool :=
  match type t with entry => false | exit => true end.

(** The comparators handed to [sort]. *)
Definition byDateAsc (a b : InventoryTransaction) : option Z :=
  time_sub (getTime (date a)) (getTime (date b)).

Definition byDateDesc (a b : InventoryTransaction) : option Z :=
  time_sub (getTime (date b)) (getTime (date a)).

Definition withQuantity (e : InventoryTransaction) (q : Q)
    : InventoryTransaction :=
  {| id := id e; productId := productId e; type := type e;
     quantity := q;
     unitCost := unitCost e; date := date e; notes := notes e |}.

(** The inner [while] loop: one exit drawn from the front of the lots.
    Every turn either shifts the first lot away or ends the loop, so the
    loop is a recursion on the list of lots. *)
Fixpoint consume (remainingExitQuantity : Q)
    (remainingEntries : list InventoryTransaction)
    : list InventoryTransaction :=
  match remainingEntries with
  | [] => []
  | oldestEntry :: rest =>
      if Qltb 0 remainingExitQuantity then
        if Qle_bool (quantity oldestEntry) remainingExitQuantity then
          consume (remainingExitQuantity - quantity oldestEntry) rest
        else
          withQuantity oldestEntry
            (quantity oldestEntry - remainingExitQuantity) :: rest
      else remainingEntries
  end.

(** The [for ... of] loop over the sorted exits. *)
Definition processExits (sortedExits remainingEntries : list InventoryTransaction)
    : list InventoryTransaction :=
  fold_left (fun lots exit_ => consume (quantity exit_) lots)
            sortedExits remainingEntries.

Definition sumQuantity (l : list InventoryTransaction) : Q :=
  fold_left (fun sum e => sum + quantity e) l 0.

Definition sumCost (l : list InventoryTransaction) : Q :=
  fold_left (fun sum e => sum + quantity e * unitCost e) l 0.

(** The weighted branch keeps the pair (totalUnits, totalValue). *)
Definition addEntry (acc : Q * Q) (e : InventoryTransaction) : Q * Q :=
  let '(totalUnits, totalValue) := acc in
  (totalUnits + quantity e, totalValue + quantity e * unitCost e).

Definition applyExit (acc : Q * Q) (exit_ : InventoryTransaction) : Q * Q :=
  let '(totalUnits, totalValue) := acc in
  if Qltb 0 totalUnits then
    let currentAverageCost := totalValue / totalUnits in
    (totalUnits - quantity exit_,
     totalValue - quantity exit_ * currentAverageCost)
  else acc.

Definition weightedTotals (entries_ exits_ : list InventoryTransaction)
    : Q * Q :=
  fold_left applyExit exits_ (fold_left addEntry entries_ (0, 0)).

Definition average (totalCost_ remainingStock_ : Q) : Q :=
  if Qltb 0 remainingStock_ then totalCost_ / remainingStock_ else 0.

(** [exits.sort(...)] sorts the array in place, so under PEPS and UEPS the
    returned [exits] is the date-sorted array. *)
Definition calculateInventoryCost (transactions : list InventoryTransaction)
    (pid : string) (method : InventoryMethod) (startDate endDate : string)
    : CostBreakdown :=
  let filteredTransactions :=
    getProductTransactions transactions pid startDate endDate in
  let entries_ := filter isEntry filteredTransactions in
  let exits_ := filter isExit filteredTransactions in
  match method with
  | PEPS =>
      let entriesQueue := sort byDateAsc entries_ in
      let sortedExits := sort byDateAsc exits_ in
      let remainingEntries := processExits sortedExits entriesQueue in
      let remainingStock_ := sumQuantity remainingEntries in
      let totalCost_ := sumCost remainingEntries in
      mkBreakdown entries_ sortedExits remainingStock_ totalCost_
                  (average totalCost_ remainingStock_)
  | UEPS =>
      let entriesStack := sort byDateDesc entries_ in
      let sortedExits := sort byDateAsc exits_ in
      let remainingEntries := processExits sortedExits entriesStack in
      let remainingStock_ := sumQuantity remainingEntries in
      let totalCost_ := sumCost remainingEntries in
      mkBreakdown entries_ sortedExits remainingStock_ totalCost_
                  (average totalCost_ remainingStock_)
  | weighted =>
      let '(totalUnits, totalValue) := weightedTotals entries_ exits_ in
      mkBreakdown entries_ exits_ totalUnits totalValue
                  (average totalValue totalUnits)
  end.

End Inventory.

(** ** The same functions on IEEE doubles

    The ledger and valuation functions once more, with every [number] a
    binary64 float and [+], [-], [*], [/], [<=], [>] those of the
    processor.  The dates, the sort and the control flow are those of the
    functions above. *)

Set Warnings "-inexact-float".

Module Binary64.
Import PrimFloat.
Local Open Scope float_scope.

Record InventoryTransaction : Set := mkTransaction {
  id : string;
  productId : string;
  type : TransactionType;
  quantity : float;
  unitCost : float;
  date : string;
  notes : string
}.

Record CostBreakdown : Set := mkBreakdown {
  entries : list InventoryTransaction;
  exits : list InventoryTransaction;
  remainingStock : float;
  totalCost : float;
  averageCost : float
}.

Definition stockStep (stock : float) (transaction : InventoryTransaction)
    : float :=
  match type transaction with
  | entry => stock + quantity transaction
  | exit => stock - quantity transaction
  end.

Definition getProductStock (transactions : list InventoryTransaction)
    (pid : string) : float :=
  let productTransactions :=
    filter (fun t => String.eqb (productId t) pid) transactions in
  fold_left stockStep productTransactions 0.

Section Valuation.
Variable getTime : string -> option Z.

Definition inDateRange (startDate endDate : string)
    (t : InventoryTransaction) : bool :=
  let start := getTime startDate in
  let end_ := getTime endDate in
  let transactionDate := getTime (date t) in
  time_geb transactionDate start && time_leb transactionDate end_.

Definition getProductTransactions (transactions : list InventoryTransaction)
    (pid startDate endDate : string) : list InventoryTransaction :=
  filter (fun t => String.eqb (productId t) pid
                   && inDateRange startDate endDate t)
         transactions.

Definition isEntry (t : InventoryTransaction) : bool :=
  match type t with entry => true | exit => false end.

Definition isExit (t : InventoryTransaction) : bool :=
  match type t with entry => false | exit => true end.

Definition byDateAsc (a b : InventoryTransaction) : option Z :=
  time_sub (getTime (date a)) (getTime (date b)).

Definition byDateDesc (a b : InventoryTransaction) : option Z :=
  time_sub (getTime (date b)) (getTime (date a)).

Definition withQuantity (e : InventoryTransaction) (q : float)
    : InventoryTransaction :=
  {| id := id e; productId := productId e; type := type e;
     quantity := q;
     unitCost := unitCost e; date := date e; notes := notes e |}.

Fixpoint consume (remainingExitQuantity : float)
    (remainingEntries : list InventoryTransaction)
    : list InventoryTransaction :=
  match remainingEntries with
  | [] => []
  | oldestEntry :: rest =>
      if 0 <? remainingExitQuantity then
        if quantity oldestEntry <=? remainingExitQuantity then
          consume (remainingExitQuantity - quantity oldestEntry) rest
        else
          withQuantity oldestEntry
            (quantity oldestEntry - remainingExitQuantity) :: rest
      else remainingEntries
  end.

Definition processExits (sortedExits remainingEntries : list InventoryTransaction)
    : list InventoryTransaction :=
  fold_left (fun lots exit_ => consume (quantity exit_) lots)
            sortedExits remainingEntries.

Definition sumQuantity (l : list InventoryTransaction) : float :=
  fold_left (fun sum e => sum + quantity e) l 0.

Definition sumCost (l : list InventoryTransaction) : float :=
  fold_left (fun sum e => sum + quantity e * unitCost e) l 0.

Definition addEntry (acc : float * float) (e : InventoryTransaction)
    : float * float :=
  let '(totalUnits, totalValue) := acc in
  (totalUnits + quantity e, totalValue + quantity e * unitCost e).

Definition applyExit (acc : float * float) (exit_ : InventoryTransaction)
    : float * float :=
  let '(totalUnits, totalValue) := acc in
  if 0 <? totalUnits then
    let currentAverageCost := totalValue / totalUnits in
    (totalUnits - quantity exit_,
     totalValue - quantity exit_ * currentAverageCost)
  else acc.

Definition weightedTotals (entries_ exits_ : list InventoryTransaction)
    : float * float :=
  fold_left applyExit exits_ (fold_left addEntry entries_ (0, 0)).

Definition average (totalCost_ remainingStock_ : float) : float :=
  if 0 <? remainingStock_ then totalCost_ / remainingStock_ else 0.

Definition calculateInventoryCost (transactions : list InventoryTransaction)
    (pid : string) (method : InventoryMethod) (startDate endDate : string)
    : CostBreakdown :=
  let filteredTransactions :=
    getProductTransactions transactions pid startDate endDate in
  let entries_ := filter isEntry filteredTransactions in
  let exits_ := filter isExit filteredTransactions in
  match method with
  | PEPS =>
      let entriesQueue := sort byDateAsc entries_ in
      let sortedExits := sort byDateAsc exits_ in
      let remainingEntries := processExits sortedExits entriesQueue in
      let remainingStock_ := sumQuantity remainingEntries in
      let totalCost_ := sumCost remainingEntries in
      mkBreakdown entries_ sortedExits remainingStock_ totalCost_
                  (average totalCost_ remainingStock_)
  | UEPS =>
      let entriesStack := sort byDateDesc entries_ in
      let sortedExits := sort byDateAsc exits_ in
      let remainingEntries := processExits sortedExits entriesStack in
      let remainingStock_ := sumQuantity remainingEntries in
      let totalCost_ := sumCost remainingEntries in
      mkBreakdown entries_ sortedExits remainingStock_ totalCost_
                  (average totalCost_ remainingStock_)
  | weighted =>
      let '(totalUnits, totalValue) := weightedTotals entries_ exits_ in
      mkBreakdown entries_ exits_ totalUnits totalValue
                  (average totalValue totalUnits)
  end.

(** The replay of the conservation condition, decided on doubles: in date
    order, every exit finds at least its quantity in stock. *)
Fixpoint covered (stock : float) (l : list InventoryTransaction) : bool :=
  match l with
  | [] => true
  | t :: l' =>
      match type t with
      | entry => covered (stock + quantity t) l'
      | exit => (quantity t <=? stock) && covered (stock - quantity t) l'
      end
  end.

Definition neverOversold (l : list InventoryTransaction) : bool :=
  covered 0 (sort byDateAsc l).

(** The unit costs of the entries do not fall along the date order. *)
Fixpoint rising (l : list InventoryTransaction) : bool :=
  match l with
  | a :: (b :: _) as l' => (unitCost a <=? unitCost b) && rising l'
  | _ => true
  end.

Definition costsNonDecreasing (l : list InventoryTransaction) : bool :=
  rising (sort byDateAsc (filter isEntry l)).
End Valuation.

(** Decimal sample ledgers of product [p1]. *)
Definition sampleEntry (i d : string) (q c : float) : InventoryTransaction :=
  mkTransaction i "p1" entry q c d "".

Definition sampleExit (i d : string) (q : float) : InventoryTransaction :=
  mkTransaction i "p1" exit q 0 d "".

(** Three entries of 0.2, 0.5 and 0.2 units, and the same with the last two
    exchanged. *)
Definition tenthsLedger : list InventoryTransaction :=
  [ sampleEntry "t1" "2024-01-01" 0.2 1;
    sampleEntry "t2" "2024-01-02" 0.5 1;
    sampleEntry "t3" "2024-01-03" 0.2 1 ].

Definition tenthsReordered : list InventoryTransaction :=
  [ sampleEntry "t1" "2024-01-01" 0.2 1;
    sampleEntry "t3" "2024-01-03" 0.2 1;
    sampleEntry "t2" "2024-01-02" 0.5 1 ].

(** Entries of 0.1, 0.2 and 0.2 units and then an exit of all 0.5. *)
Definition halfLedger : list InventoryTransaction :=
  [ sampleEntry "t1" "2024-01-01" 0.1 1;
    sampleEntry "t2" "2024-01-02" 0.2 1;
    sampleEntry "t3" "2024-01-03" 0.2 1;
    sampleExit "t4" "2024-01-04" 0.5 ].

Definition half (method : InventoryMethod) : CostBreakdown :=
  calculateInventoryCost isoTime halfLedger "p1" method
                         "2024-01-01" "2024-01-31".

(** One unit each at 1.1, 1.2 and 1.3, and no exit. *)
Definition risingLedger : list InventoryTransaction :=
  [ sampleEntry "t1" "2024-01-01" 1 1.1;
    sampleEntry "t2" "2024-01-02" 1 1.2;
    sampleEntry "t3" "2024-01-03" 1 1.3 ].

Definition risingCosts (method : InventoryMethod) : CostBreakdown :=
  calculateInventoryCost isoTime risingLedger "p1" method
                         "2024-01-01" "2024-01-31".

(** The January ledger of the worked example, in doubles. *)
Definition januaryLedger : list InventoryTransaction :=
  [ sampleEntry "t1" "2024-01-01" 10 5;
    sampleEntry "t2" "2024-01-10" 10 7;
    sampleExit "t3" "2024-01-15" 12 ].

Definition january (method : InventoryMethod) : CostBreakdown :=
  calculateInventoryCost isoTime januaryLedger "p1" method
                         "2024-01-01" "2024-01-31".
End Binary64.

(** ** The catalogue functions

    [categories] and [products] are React state as well and are passed
    explicitly; [newId] is again the value of [uuidv4()]. *)

Module Category.
Record t : Set := mk {
  id : string;
  name : string;
  description : string
}.
End Category.

(** [Omit<Category, 'id'>] and [Omit<Product, 'id'>]. *)
Module CategoryDraft.
Record t : Set := mk {
  name : string;
  description : string
}.
End CategoryDraft.

Module ProductDraft.
Record t : Set := mk {
  name : string;
  description : string;
  categoryId : string;
  sku : string;
  minStock : Q;
  image : string;
  price : Q;
  barcode : option string
}.
End ProductDraft.

(** A row of [getCategoryStock]. *)
Module StockRow.
Record t : Set := mk {
  productId : string;
  stock : Q
}.
End StockRow.

Definition newCategory (newId : string) (category : CategoryDraft.t)
    : Category.t :=
  {| Category.id := newId;
     Category.name := CategoryDraft.name category;
     Category.description := CategoryDraft.description category |}.

Definition addCategory (categories : list Category.t) (newId : string)
    (category : CategoryDraft.t) : list Category.t :=
  categories ++ [newCategory newId category].

Definition updateCategory (categories : list Category.t)
    (updatedCategory : Category.t) : list Category.t :=
  map (fun cat =>
         if String.eqb (Category.id cat) (Category.id updatedCategory)
         then updatedCategory else cat)
      categories.

Definition categoryInUse : string :=
  "Cannot delete category that is in use by products".

Definition deleteCategory (products : list Product.t)
    (categories : list Category.t) (id_ : string)
    : string + list Category.t :=
  let inUse :=
    existsb (fun product => String.eqb (Product.categoryId product) id_)
            products in
  if inUse then inl categoryInUse
  else inr (filter (fun cat => negb (String.eqb (Category.id cat) id_))
                   categories).

Definition newProduct (newId : string) (product : ProductDraft.t)
    : Product.t :=
  {| Product.id := newId;
     Product.name := ProductDraft.name product;
     Product.description := ProductDraft.description product;
     Product.categoryId := ProductDraft.categoryId product;
     Product.sku := ProductDraft.sku product;
     Product.minStock := ProductDraft.minStock product;
     Product.image := ProductDraft.image product;
     Product.price := ProductDraft.price product;
     Product.barcode := ProductDraft.barcode product |}.

Definition addProduct (products : list Product.t) (newId : string)
    (product : ProductDraft.t) : list Product.t :=
  products ++ [newProduct newId product].

Definition updateProduct (products : list Product.t)
    (updatedProduct : Product.t) : list Product.t :=
  map (fun prod =>
         if String.eqb (Product.id prod) (Product.id updatedProduct)
         then updatedProduct else prod)
      products.

Definition productHasTransactions : string :=
  "Cannot delete product that has transactions".

Definition deleteProduct (transactions : list InventoryTransaction)
    (products : list Product.t) (id_ : string)
    : string + list Product.t :=
  let hasTransactions :=
    existsb (fun transaction => String.eqb (productId transaction) id_)
            transactions in
  if hasTransactions then inl productHasTransactions
  else inr (filter (fun prod => negb (String.eqb (Product.id prod) id_))
                   products).

Definition getCategoryStock (products : list Product.t)
    (transactions : list InventoryTransaction) (categoryId : string)
    : list StockRow.t :=
  let categoryProducts :=
    filter (fun p => String.eqb (Product.categoryId p) categoryId) products in
  map (fun product =>
         {| StockRow.productId := Product.id product;
            StockRow.stock := getProductStock transactions (Product.id product) |})
      categoryProducts.

(** ** Sample ledgers *)

Definition sampleEntry (i d : string) (q c : Q) : InventoryTransaction :=
  mkTransaction i "p1" entry q c d "".

Definition sampleExit (i d : string) (q : Q) : InventoryTransaction :=
  mkTransaction i "p1" exit q 0 d "".

(** Two entries and one exit of product [p1] in January 2024. *)
Definition januaryLedger : list InventoryTransaction :=
  [ sampleEntry "t1" "2024-01-01" 10 5;
    sampleEntry "t2" "2024-01-10" 10 7;
    sampleExit "t3" "2024-01-15" 12 ].

Definition january (method : InventoryMethod) : CostBreakdown :=
  calculateInventoryCost isoTime januaryLedger "p1" method
                         "2024-01-01" "2024-01-31".

(** One entry, sold in full two weeks later. *)
Definition soldOutLedger : list InventoryTransaction :=
  [ sampleEntry "t1" "2024-01-01" 10 5;
    sampleExit "t2" "2024-01-15" 10 ].

Definition soldOut (method : InventoryMethod) : CostBreakdown :=
  calculateInventoryCost isoTime soldOutLedger "p1" method
                         "2024-01-01" "2024-01-31".

(** Stock bought in December and January, and a January exit that is larger
    than the January entry alone.  The three drafts, in this order, are
    what [addTransaction] receives. *)
Definition decemberEntry : Draft.t :=
  Draft.mk "p1" entry 10 5 "2023-12-01" "".

Definition januaryEntry : Draft.t :=
  Draft.mk "p1" entry 5 4 "2024-01-05" "".

Definition januaryExit : Draft.t :=
  Draft.mk "p1" exit 12 0 "2024-01-20" "".

Definition carriedOverLedger : list InventoryTransaction :=
  [ newTransaction "t1" decemberEntry;
    newTransaction "t2" januaryEntry;
    newTransaction "t3" januaryExit ].

Definition carriedOver (method : InventoryMethod) : CostBreakdown :=
  calculateInventoryCost isoTime carriedOverLedger "p1" method
                         "2024-01-01" "2024-01-31".

(** The January ledger with the two prices exchanged: costs fall. *)
Definition fallingLedger : list InventoryTransaction :=
  [ sampleEntry "t1" "2024-01-01" 10 7;
    sampleEntry "t2" "2024-01-10" 10 5;
    sampleExit "t3" "2024-01-15" 12 ].

Definition falling (method : InventoryMethod) : CostBreakdown :=
  calculateInventoryCost isoTime fallingLedger "p1" method
                         "2024-01-01" "2024-01-31".

(** A product whose stock, 8 units on the January ledger, is exactly its
    minimum. *)
Definition sampleProduct : Product.t :=
  Product.mk "p1" "Agua Natural 1L" "" "cat-beverages" "BEB-002" 8 "" 12 None.

(** ** Vocabulary of the specification *)

(** Sum of [f] over a list. *)
Definition Qsum {A : Type} (f : A -> Q) (l : list A) : Q :=
  fold_right (fun a acc => f a + acc) 0 l.

(** The ledger after a call of [addTransaction]: [setTransactions] is
    reached only when nothing was thrown. *)
Definition ledgerAfter (transactions : list InventoryTransaction)
    (outcome : string + list InventoryTransaction)
    : list InventoryTransaction :=
  match outcome with
  | inl _ => transactions
  | inr next => next
  end.

Definition ofProduct (pid : string) (transactions : list InventoryTransaction)
    : list InventoryTransaction :=
  filter (fun t => String.eqb (productId t) pid) transactions.

Definition nonNegative (l : list InventoryTransaction) : Prop :=
  Forall (fun t => 0 <= quantity t) l.

Section Vocabulary.
Variable getTime : string -> option Z.

(** The date of [t] is valid and lies in the closed range. *)
Definition dateBetween (startDate endDate : string)
    (t : InventoryTransaction) : Prop :=
  exists s d e,
    getTime startDate = Some s /\ getTime (date t) = Some d /\
    getTime endDate = Some e /\ (s <= d <= e)%Z.

Definition laterThan (startDate endDate : string) : Prop :=
  exists s e,
    getTime startDate = Some s /\ getTime endDate = Some e /\ (e < s)%Z.

(** What a valuation query sees, and its entries and exits. *)
Definition inRange (transactions : list InventoryTransaction)
    (pid startDate endDate : string) : list InventoryTransaction :=
  getProductTransactions getTime transactions pid startDate endDate.

Definition entriesOf (l : list InventoryTransaction) := filter isEntry l.
Definition exitsOf (l : list InventoryTransaction) := filter isExit l.

(** Replay in date order (ties in storage order) from a stock level: every
    exit finds at least its quantity in stock. *)
Fixpoint covered (stock : Q) (l : list InventoryTransaction) : Prop :=
  match l with
  | [] => True
  | t :: l' =>
      match type t with
      | entry => covered (stock + quantity t) l'
      | exit => quantity t <= stock /\ covered (stock - quantity t) l'
      end
  end.

Definition neverOversold (l : list InventoryTransaction) : Prop :=
  covered 0 (sort (byDateAsc getTime) l).

(** Unit costs along the date order of the entries. *)
Definition costsNonDecreasing (l : list InventoryTransaction) : Prop :=
  Sorted (fun a b => unitCost a <= unitCost b)
         (sort (byDateAsc getTime) (entriesOf l)).

Definition costsNonIncreasing (l : list InventoryTransaction) : Prop :=
  Sorted (fun a b => unitCost b <= unitCost a)
         (sort (byDateAsc getTime) (entriesOf l)).
End Vocabulary.

(** Devices of the cost comparison.  [sigma] is the direction in which the
    unit costs are ordered (1 for rising, -1 for falling costs).

    [surplus sigma theta l] values every unit of [l] at the amount by which
    its cost lies beyond the price [theta]. *)
Definition surplus (sigma theta : Q) (l : list InventoryTransaction) : Q :=
  Qsum (fun e => quantity e * Qmax 0 (sigma * (unitCost e - theta))) l.

Definition costSorted (sigma : Q) (l : list InventoryTransaction) : Prop :=
  StronglySorted (fun a b => sigma * unitCost a <= sigma * unitCost b) l.

(** [kept] is what an exit stream can leave of the queue [lots]: nothing, or
    a tail of the queue whose first lot is cut down. *)
Definition remnant (lots kept : list InventoryTransaction) : Prop :=
  kept = [] \/
  exists pre e q rest,
    lots = pre ++ e :: rest /\ kept = withQuantity e q :: rest
    /\ 0 <= q <= quantity e.

(** ** Whole numbers

    Where the doubles of the code compute exactly: on whole numbers every
    sum, difference and product whose magnitude stays below 2^53 is exact,
    and a quotient is rounded to the nearest double, which never carries it
    across a whole number. *)
Definition wholeNumber (q : Q) : Prop := inject_Z (Qfloor q) == q.

Definition exactLimit : Q := 9007199254740992.

(** The quantities are whole numbers and stay, taken together, below the
    limit. *)
Definition wholeQuantities (l : list InventoryTransaction) : Prop :=
  Forall (fun t => wholeNumber (quantity t)) l
  /\ Qsum (fun t => Qabs (quantity t)) l < exactLimit.

(** The unit costs are whole numbers and the values, quantity times unit
    cost, stay, taken together, below the limit. *)
Definition wholeValues (l : list InventoryTransaction) : Prop :=
  Forall (fun t => wholeNumber (unitCost t)) l
  /\ Qsum (fun t => Qabs (quantity t * unitCost t)) l < exactLimit.




(** ** Vocabulary of the catalogue and ledger properties *)

(** A ledger that grew from the empty one through accepted calls of
    [addTransaction], every draft with a quantity that is not negative. *)
Inductive built : list InventoryTransaction -> Prop :=
| built_empty : built []
| built_append transactions newId draft next :
    built transactions ->
    0 <= Draft.quantity draft ->
    addTransaction transactions newId draft = inr next ->
    built next.

(** The map of [updateCategory] and [updateProduct], and the filter of
    [deleteCategory] and [deleteProduct], over any list keyed by an id. *)
Definition replaced {A : Type} (key : A -> string) (u : A) (l : list A)
    : list A :=
  map (fun x => if String.eqb (key x) (key u) then u else x) l.

Definition without {A : Type} (key : A -> string) (k : string) (l : list A)
    : list A :=
  filter (fun x => negb (String.eqb (key x) k)) l.

(** [t] is dated at the time value [d]. *)
Definition atTime (getTime : string -> option Z) (d : Z)
    (t : InventoryTransaction) : bool :=
  match getTime (date t) with
  | Some x => (x =? d)%Z
  | None => false
  end.

(** [a] is dated no later than [b]. *)
Definition notAfter (getTime : string -> option Z)
    (a b : InventoryTransaction) : Prop :=
  time_leb (getTime (date a)) (getTime (date b)) = true.

(** An exit that the January ledger, with 8 units in stock, can serve, and
    one more exit for the sold-out ledger. *)
Definition smallExit : Draft.t :=
  Draft.mk "p1" exit 3 0 "2024-01-25" "".

Definition lateExit : InventoryTransaction :=
  sampleExit "t3" "2024-01-20" 4.

Definition categoryIds (categories : list Category.t) : list string :=
  map Category.id categories.

Definition productIds (products : list Product.t) : list string :=
  map Product.id products.

(** A small catalogue for the sample ledgers. *)
Definition beverages : Category.t :=
  Category.mk "cat-beverages" "Bebidas" "".

Definition snacks : Category.t :=
  Category.mk "cat-snacks" "Snacks" "".

Definition sampleCategories : list Category.t := [beverages; snacks].

Definition renamedSnacks : Category.t :=
  Category.mk "cat-snacks" "Botanas" "".

Definition dairyDraft : CategoryDraft.t :=
  CategoryDraft.mk "Lacteos" "".

Definition otherProduct : Product.t :=
  Product.mk "p2" "Jugo de Naranja 1L" "" "cat-beverages" "BEB-003" 15 "" 28 None.

Definition sampleProducts : list Product.t := [sampleProduct; otherProduct].

Definition repricedProduct : Product.t :=
  Product.mk "p2" "Jugo de Naranja 1L" "" "cat-beverages" "BEB-003" 15 "" 30 None.

Definition chipsDraft : ProductDraft.t :=
  ProductDraft.mk "Papas" "" "cat-snacks" "SNK-001" 10 "" 18 None.

(** * Properties *)

(** ** Booleans and sums *)

Lemma Qltb_lt (a b : Q) : Qltb a b = true <-> a < b.
Proof.
  unfold Qltb. rewrite negb_true_iff, <- not_true_iff_false, Qle_bool_iff.
  split; intro H; [apply Qnot_le_lt | apply Qlt_not_le]; exact H.
Qed.

Lemma Qltb_ge (a b : Q) : Qltb a b = false <-> b <= a.
Proof.
  unfold Qltb. rewrite negb_false_iff. apply Qle_bool_iff.
Qed.

Lemma Qle_bool_gt (a b : Q) : Qle_bool a b = false <-> b < a.
Proof.
  rewrite <- not_true_iff_false, Qle_bool_iff.
  split; intro H; [apply Qnot_le_lt | apply Qlt_not_le]; exact H.
Qed.

(** Turn the boolean test found in a goal or hypothesis into an order fact. *)
Ltac qcase b H :=
  destruct b eqn:H;
  [ first [ apply Qltb_lt in H | apply Qle_bool_iff in H ]
  | first [ apply Qltb_ge in H | apply Qle_bool_gt in H ] ].

Lemma fold_left_Qsum {A : Type} (f : A -> Q) (l : list A) (a : Q) :
  fold_left (fun sum e => sum + f e) l a == a + Qsum f l.
Proof.
  revert a. induction l as [| x l IH]; intro a; simpl.
  - lra.
  - rewrite IH. lra.
Qed.

Lemma sumQuantity_Qsum l : sumQuantity l == Qsum quantity l.
Proof. unfold sumQuantity. rewrite fold_left_Qsum. lra. Qed.

Lemma sumCost_Qsum l :
  sumCost l == Qsum (fun e => quantity e * unitCost e) l.
Proof. unfold sumCost. rewrite fold_left_Qsum. lra. Qed.

Lemma Qsum_app {A : Type} (f : A -> Q) (l1 l2 : list A) :
  Qsum f (l1 ++ l2) == Qsum f l1 + Qsum f l2.
Proof.
  induction l1 as [| x l1 IH]; simpl; [lra | rewrite IH; lra].
Qed.

Lemma Qsum_Permutation {A : Type} (f : A -> Q) (l1 l2 : list A) :
  Permutation l1 l2 -> Qsum f l1 == Qsum f l2.
Proof.
  induction 1 as [| x l1 l2 _ IH | x y l | l1 l2 l3 _ IH1 _ IH2]; simpl.
  - reflexivity.
  - rewrite IH. reflexivity.
  - lra.
  - rewrite IH1. exact IH2.
Qed.

Lemma filter_Permutation {A : Type} (keep : A -> bool) (l1 l2 : list A) :
  Permutation l1 l2 -> Permutation (filter keep l1) (filter keep l2).
Proof.
  induction 1 as [| x l1 l2 _ IH | x y l | l1 l2 l3 _ IH1 _ IH2]; simpl.
  - constructor.
  - destruct (keep x); [now apply perm_skip | exact IH].
  - destruct (keep x), (keep y); try reflexivity. apply perm_swap.
  - now transitivity (filter keep l2).
Qed.

Lemma Qsum_nonneg {A : Type} (f : A -> Q) (l : list A) :
  Forall (fun a => 0 <= f a) l -> 0 <= Qsum f l.
Proof.
  induction 1 as [| x l Hx _ IH]; simpl; lra.
Qed.

(** ** The sort is a stable rearrangement *)

Section SortFacts.
Context {A : Type} (cmp : A -> A -> option Z).

Lemma insert_Permutation (x : A) (l : list A) :
  Permutation (x :: l) (insert cmp x l).
Proof.
  induction l as [| y l IH]; simpl.
  - reflexivity.
  - destruct (cmp_pos cmp x y).
    + rewrite perm_swap. now apply perm_skip.
    + reflexivity.
Qed.

Lemma sort_Permutation (l : list A) : Permutation l (sort cmp l).
Proof.
  induction l as [| x l IH]; simpl.
  - constructor.
  - rewrite <- insert_Permutation. now apply perm_skip.
Qed.

Lemma sort_Forall (P : A -> Prop) (l : list A) :
  Forall P l -> Forall P (sort cmp l).
Proof.
  intro H. eapply Permutation_Forall; [apply sort_Permutation | exact H].
Qed.

End SortFacts.

(** ** Current stock *)

Lemma fold_left_stockStep (l : list InventoryTransaction) (a : Q) :
  fold_left stockStep l a
  == a + Qsum quantity (filter isEntry l) - Qsum quantity (filter isExit l).
Proof.
  revert a. induction l as [| t l IH]; intro a; simpl.
  - lra.
  - rewrite IH. unfold stockStep, isEntry, isExit.
    destruct (type t); simpl; lra.
Qed.

Lemma getProductStock_sum transactions pid :
  getProductStock transactions pid
  == Qsum quantity (entriesOf (ofProduct pid transactions))
     - Qsum quantity (exitsOf (ofProduct pid transactions)).
Proof.
  unfold getProductStock, entriesOf, exitsOf, ofProduct.
  rewrite fold_left_stockStep. lra.
Qed.

Lemma filter_none {A : Type} (keep : A -> bool) (l : list A) :
  (forall a, In a l -> keep a = false) -> filter keep l = [].
Proof.
  induction l as [| x l IH]; intro H; simpl.
  - reflexivity.
  - rewrite (H x (or_introl eq_refl)). apply IH.
    intros a Ha. apply H. now right.
Qed.

(** In exact arithmetic the current stock is the sum of the entry
    quantities minus the sum of the exit quantities and does not depend on
    the order of the ledger. *)
Lemma getProductStock_signed_sum_exact transactions pid :
  getProductStock transactions pid
  == Qsum quantity (entriesOf (ofProduct pid transactions))
     - Qsum quantity (exitsOf (ofProduct pid transactions))
  /\ ((forall t, In t transactions -> productId t <> pid) ->
      getProductStock transactions pid = 0)
  /\ (forall stored, Permutation transactions stored ->
      getProductStock stored pid == getProductStock transactions pid).
Proof.
  split; [apply getProductStock_sum | split].
  - intro Hnone. unfold getProductStock.
    rewrite filter_none; [reflexivity |].
    intros t Ht. apply String.eqb_neq. now apply Hnone.
  - intros stored Hperm. rewrite !getProductStock_sum.
    unfold entriesOf, exitsOf, ofProduct.
    assert (Hp : Permutation (filter (fun t => String.eqb (productId t) pid) stored)
                             (filter (fun t => String.eqb (productId t) pid) transactions)).
    { symmetry in Hperm. apply filter_Permutation; exact Hperm. }
    rewrite (Qsum_Permutation quantity _ _ (filter_Permutation isEntry _ _ Hp)).
    rewrite (Qsum_Permutation quantity _ _ (filter_Permutation isExit _ _ Hp)).
    reflexivity.
Qed.

(** C3, amended: the current stock of a product is 0 when the ledger has no
    transaction of it; and when the quantities of its transactions are whole
    numbers that together stay below 2^53, it is the sum of the quantities
    of its entries minus the sum of the quantities of its exits, over the
    whole ledger, and does not depend on the order in which the ledger is
    stored. *)
Theorem getProductStock_signed_sum transactions pid :
  ((forall t, In t transactions -> productId t <> pid) ->
   getProductStock transactions pid = 0)
  /\ (wholeQuantities (ofProduct pid transactions) ->
      getProductStock transactions pid
      == Qsum quantity (entriesOf (ofProduct pid transactions))
         - Qsum quantity (exitsOf (ofProduct pid transactions))
      /\ (forall stored, Permutation transactions stored ->
            getProductStock stored pid == getProductStock transactions pid)).
Proof.
  destruct (getProductStock_signed_sum_exact transactions pid)
    as (Hsum & Hnone & Horder).
  split; [exact Hnone | intros _; split; [exact Hsum | exact Horder]].
Qed.

(** C8: the low-stock products are exactly the products, in catalogue
    order, whose current stock is at most their [minStock]; a product whose
    stock equals its [minStock] is among them. *)
Theorem getLowStockProducts_inclusive products transactions :
  (exists keep : Product.t -> bool,
      (forall p, keep p = true <->
                 getProductStock transactions (Product.id p) <= Product.minStock p)
      /\ getLowStockProducts products transactions = filter keep products)
  /\ (forall p, In p products ->
        getProductStock transactions (Product.id p) == Product.minStock p ->
        In p (getLowStockProducts products transactions)).
Proof.
  split.
  - exists (fun p => Qle_bool (getProductStock transactions (Product.id p))
                              (Product.minStock p)).
    split; [intro p; apply Qle_bool_iff | reflexivity].
  - intros p Hin Heq. unfold getLowStockProducts.
    apply filter_In. split; [exact Hin |].
    apply Qle_bool_iff. rewrite Heq. apply Qle_refl.
Qed.

(** ** Appending to the ledger *)

(** C6: a draft is rejected with the insufficient-stock error exactly when
    it is an exit whose quantity is larger than the current stock of its
    product; a rejection leaves the ledger as it was; an entry is never
    rejected; an accepted draft adds one transaction, with the fields of the
    draft, at the end of the ledger. *)
Theorem addTransaction_gate transactions newId draft :
  let outcome := addTransaction transactions newId draft in
  (outcome = inl notEnoughStock <->
     Draft.type draft = exit /\
     getProductStock transactions (Draft.productId draft) < Draft.quantity draft)
  /\ (forall msg, outcome = inl msg ->
        msg = notEnoughStock /\ ledgerAfter transactions outcome = transactions)
  /\ (Draft.type draft = entry -> exists next, outcome = inr next)
  /\ (forall next, outcome = inr next ->
        next = transactions ++ [newTransaction newId draft]
        /\ ledgerAfter transactions outcome
           = transactions ++ [mkTransaction newId (Draft.productId draft)
                                (Draft.type draft) (Draft.quantity draft)
                                (Draft.unitCost draft) (Draft.date draft)
                                (Draft.notes draft)]).
Proof.
  cbv zeta. unfold addTransaction.
  destruct (Draft.type draft) eqn:Htype;
    [| destruct (Qltb _ _) eqn:Hlt;
       [apply Qltb_lt in Hlt | apply Qltb_ge in Hlt]];
    (split; [| split; [| split]]).
  (* an entry *)
  - split; [discriminate | intros [Hexit _]; discriminate].
  - intros msg H. discriminate.
  - intros _. eexists. reflexivity.
  - intros next [= <-]. unfold newTransaction. rewrite Htype. now split.
  (* an exit larger than the stock *)
  - now split.
  - intros msg [= <-]. now split.
  - discriminate.
  - intros next H. discriminate.
  (* an exit within the stock *)
  - split; [discriminate | intros [_ Hlt']; exfalso; lra].
  - intros msg H. discriminate.
  - discriminate.
  - intros next [= <-]. unfold newTransaction. rewrite Htype. now split.
Qed.

(** ** The date filter *)

Section Filter.
Variable getTime : string -> option Z.

Lemma inDateRange_between startDate endDate t :
  inDateRange getTime startDate endDate t = true
  <-> dateBetween getTime startDate endDate t.
Proof.
  unfold inDateRange, dateBetween, time_geb, time_leb.
  destruct (getTime startDate) as [s |], (getTime (date t)) as [d |],
           (getTime endDate) as [e |]; simpl;
    rewrite ?andb_false_r;
    try (split; [discriminate |];
         intros (s' & d' & e' & H1 & H2 & H3 & _); discriminate).
  rewrite andb_true_iff, !Z.leb_le. split.
  - intros [H1 H2]. exists s, d, e. repeat split; assumption.
  - intros (s' & d' & e' & [= <-] & [= <-] & [= <-] & H). exact H.
Qed.

(** C5: the filter returns, in ledger order, exactly the transactions of
    the product whose date lies in the closed range; when none matches the
    result is the empty list; when the start is later than the end the
    result is the empty list.  The function is total: no input raises. *)
Theorem getProductTransactions_exact transactions pid startDate endDate :
  (exists keep : InventoryTransaction -> bool,
      (forall t, keep t = true <->
                 productId t = pid /\ dateBetween getTime startDate endDate t)
      /\ getProductTransactions getTime transactions pid startDate endDate
         = filter keep transactions)
  /\ ((forall t, In t transactions ->
                 ~ (productId t = pid /\ dateBetween getTime startDate endDate t)) ->
      getProductTransactions getTime transactions pid startDate endDate = [])
  /\ (laterThan getTime startDate endDate ->
      getProductTransactions getTime transactions pid startDate endDate = []).
Proof.
  assert (Hkeep : forall t,
             String.eqb (productId t) pid && inDateRange getTime startDate endDate t = true
             <-> productId t = pid /\ dateBetween getTime startDate endDate t).
  { intro t. now rewrite andb_true_iff, String.eqb_eq, inDateRange_between. }
  split; [| split].
  - eexists. split; [exact Hkeep | reflexivity].
  - intro Hnone. apply filter_none. intros t Ht.
    apply not_true_iff_false. rewrite Hkeep. now apply Hnone.
  - intros (s & e & Hs & He & Hlt). apply filter_none. intros t _.
    apply not_true_iff_false. rewrite Hkeep.
    intros [_ (s' & d & e' & Hs' & _ & He' & Hle)].
    rewrite Hs in Hs'. rewrite He in He'.
    injection Hs' as <-. injection He' as <-. lia.
Qed.
End Filter.

(** ** The worked example *)

(** C2: on the January ledger (10 units at 5 on 2024-01-01, 10 units at 7 on
    2024-01-10, an exit of 12 on 2024-01-15) PEPS leaves 8 units worth 56 at
    an average of 7, UEPS leaves 8 units worth 40 at an average of 5, and the
    weighted method leaves 8 units worth 48 at an average of 6. *)
Theorem january_example :
  (remainingStock (january PEPS) == 8 /\ totalCost (january PEPS) == 56
   /\ averageCost (january PEPS) == 7)
  /\ (remainingStock (january UEPS) == 8 /\ totalCost (january UEPS) == 40
      /\ averageCost (january UEPS) == 5)
  /\ (remainingStock (january weighted) == 8
      /\ totalCost (january weighted) == 48
      /\ averageCost (january weighted) == 6).
Proof.
  repeat split; vm_compute; reflexivity.
Qed.

(** ** Drawing exits from the lots *)

Lemma nonNegative_filter keep l : nonNegative l -> nonNegative (filter keep l).
Proof.
  unfold nonNegative. rewrite !Forall_forall. intros H t Ht.
  apply filter_In in Ht. now apply H.
Qed.

Lemma consume_nonNegative x lots :
  nonNegative lots -> nonNegative (consume x lots).
Proof.
  unfold nonNegative. revert x.
  induction lots as [| e lots IH]; intros x Hall; simpl; [constructor |].
  inversion Hall as [| ? ? He Hrest]; subst.
  qcase (Qltb 0 x) Hx; [| exact Hall].
  qcase (Qle_bool (quantity e) x) Hq.
  - now apply IH.
  - constructor; [simpl; lra | exact Hrest].
Qed.

Lemma processExits_nonNegative sortedExits lots :
  nonNegative lots -> nonNegative (processExits sortedExits lots).
Proof.
  unfold processExits. revert lots.
  induction sortedExits as [| x xs IH]; intros lots H; simpl; [exact H |].
  apply IH. now apply consume_nonNegative.
Qed.

(** One exit takes its quantity out of the lots, as far as they reach. *)
Lemma consume_quantity x lots :
  nonNegative lots -> 0 <= x ->
  Qsum quantity (consume x lots) == Qmax 0 (Qsum quantity lots - x).
Proof.
  revert x. induction lots as [| e lots IH]; intros x Hall Hx; simpl.
  - destruct (Q.max_spec 0 (0 - x)) as [[? ->] | [? ->]]; lra.
  - inversion Hall as [| ? ? He Hrest]; subst.
    pose proof (Qsum_nonneg quantity lots Hrest) as Hsum.
    qcase (Qltb 0 x) Hpos.
    + qcase (Qle_bool (quantity e) x) Hq.
      * rewrite IH by (try assumption; lra).
        destruct (Q.max_spec 0 (Qsum quantity lots - (x - quantity e)))
          as [[? ->] | [? ->]];
        destruct (Q.max_spec 0 (quantity e + Qsum quantity lots - x))
          as [[? ->] | [? ->]]; lra.
      * simpl.
        destruct (Q.max_spec 0 (quantity e + Qsum quantity lots - x))
          as [[? ->] | [? ->]]; lra.
    + simpl.
      destruct (Q.max_spec 0 (quantity e + Qsum quantity lots - x))
        as [[? ->] | [? ->]]; lra.
Qed.

Lemma processExits_quantity sortedExits lots :
  nonNegative lots -> nonNegative sortedExits ->
  Qsum quantity (processExits sortedExits lots)
  == Qmax 0 (Qsum quantity lots - Qsum quantity sortedExits).
Proof.
  unfold processExits. revert lots.
  induction sortedExits as [| x xs IH]; intros lots Hlots Hxs; simpl.
  - pose proof (Qsum_nonneg quantity lots Hlots).
    destruct (Q.max_spec 0 (Qsum quantity lots - 0)) as [[? ->] | [? ->]]; lra.
  - inversion Hxs as [| ? ? Hx Hrest]; subst.
    pose proof (Qsum_nonneg quantity xs Hrest).
    rewrite IH by (try assumption; now apply consume_nonNegative).
    pose proof (consume_quantity (quantity x) lots Hlots Hx) as Hc.
    destruct (Q.max_spec 0 (Qsum quantity lots - quantity x)) as [[? H1] | [? H1]];
    destruct (Q.max_spec 0 (Qsum quantity (consume (quantity x) lots)
                            - Qsum quantity xs)) as [[? ->] | [? ->]];
    destruct (Q.max_spec 0 (Qsum quantity lots
                            - (quantity x + Qsum quantity xs))) as [[? ->] | [? ->]];
    lra.
Qed.

Section Remaining.
Variable getTime : string -> option Z.
Variables (transactions : list InventoryTransaction).
Variables (pid startDate endDate : string).

Let seen := inRange getTime transactions pid startDate endDate.
Let cost method :=
  calculateInventoryCost getTime transactions pid method startDate endDate.

(** What is left under PEPS and UEPS, whatever order the lots are drawn
    in: the entries less the exits, and nothing when the exits are more. *)
Lemma remaining_lots cmp :
  nonNegative seen ->
  sumQuantity (processExits (sort (byDateAsc getTime) (exitsOf seen))
                            (sort cmp (entriesOf seen)))
  == Qmax 0 (Qsum quantity (entriesOf seen) - Qsum quantity (exitsOf seen)).
Proof.
  intro Hq. rewrite sumQuantity_Qsum.
  rewrite processExits_quantity
    by (apply sort_Forall; now apply nonNegative_filter).
  rewrite <- (Qsum_Permutation quantity _ _ (sort_Permutation cmp (entriesOf seen))).
  rewrite <- (Qsum_Permutation quantity _ _
                (sort_Permutation (byDateAsc getTime) (exitsOf seen))).
  reflexivity.
Qed.

(** In exact arithmetic PEPS and UEPS leave the entries less the exits, and
    nothing when the exits are more. *)
Lemma fifo_lifo_remainingStock_exact :
  nonNegative seen ->
  remainingStock (cost PEPS)
  == Qmax 0 (Qsum quantity (entriesOf seen) - Qsum quantity (exitsOf seen))
  /\ remainingStock (cost UEPS)
     == Qmax 0 (Qsum quantity (entriesOf seen) - Qsum quantity (exitsOf seen)).
Proof.
  intro Hq. split; apply remaining_lots; exact Hq.
Qed.

(** C10, amended: for in-range quantities that are whole numbers, not
    negative and together below 2^53, under PEPS and under UEPS the
    remaining stock is the sum of the in-range entry quantities minus the
    sum of the in-range exit quantities, or 0 when that difference is
    negative; no condition on the size of the exits or on the dates is
    needed. *)
Theorem fifo_lifo_remainingStock :
  nonNegative seen -> wholeQuantities seen ->
  remainingStock (cost PEPS)
  == Qmax 0 (Qsum quantity (entriesOf seen) - Qsum quantity (exitsOf seen))
  /\ remainingStock (cost UEPS)
     == Qmax 0 (Qsum quantity (entriesOf seen) - Qsum quantity (exitsOf seen)).
Proof.
  intros Hq _. exact (fifo_lifo_remainingStock_exact Hq).
Qed.
End Remaining.

(** ** The weighted totals *)

Lemma fold_addEntry entries_ u v :
  fst (fold_left addEntry entries_ (u, v)) == u + Qsum quantity entries_
  /\ snd (fold_left addEntry entries_ (u, v))
     == v + Qsum (fun e => quantity e * unitCost e) entries_.
Proof.
  revert u v. induction entries_ as [| e l IH]; intros u v; simpl.
  - split; lra.
  - destruct (IH (u + quantity e) (v + quantity e * unitCost e)) as [H1 H2].
    rewrite H1, H2. split; lra.
Qed.

(** An exit met while no unit is left changes nothing. *)
Lemma applyExit_skip u v exit_ : u <= 0 -> applyExit (u, v) exit_ = (u, v).
Proof.
  intro Hu. unfold applyExit. apply Qltb_ge in Hu. now rewrite Hu.
Qed.

Lemma applyExit_take u v exit_ :
  0 < u ->
  applyExit (u, v) exit_
  = (u - quantity exit_, v - quantity exit_ * (v / u)).
Proof.
  intro Hu. unfold applyExit. apply Qltb_lt in Hu. now rewrite Hu.
Qed.


(** An exit larger than the units left takes the units below zero: the
    guard looks at the units before the exit, not at what the exit leaves. *)
Lemma applyExit_oversold u v exit_ :
  0 < u -> u < quantity exit_ -> fst (applyExit (u, v) exit_) < 0.
Proof.
  intros Hu Hx. rewrite applyExit_take by exact Hu. simpl. lra.
Qed.

(** While the exits fit into the units, the units left are the difference. *)
Lemma fold_applyExit_units exits_ u v :
  nonNegative exits_ -> Qsum quantity exits_ <= u ->
  fst (fold_left applyExit exits_ (u, v)) == u - Qsum quantity exits_.
Proof.
  revert u v. induction exits_ as [| x xs IH]; intros u v Hxs Hfit.
  - simpl. lra.
  - inversion Hxs as [| ? ? Hx Hrest]; subst.
    pose proof (Qsum_nonneg quantity xs Hrest) as Hsum.
    change (Qsum quantity (x :: xs)) with (quantity x + Qsum quantity xs) in *.
    change (fold_left applyExit (x :: xs) (u, v))
      with (fold_left applyExit xs (applyExit (u, v) x)).
    destruct (Qlt_le_dec 0 u) as [Hu | Hu].
    + rewrite applyExit_take by exact Hu.
      assert (Hfit' : Qsum quantity xs <= u - quantity x) by lra.
      pose proof (IH _ (v - quantity x * (v / u)) Hrest Hfit'). lra.
    + rewrite applyExit_skip by exact Hu.
      assert (Hfit' : Qsum quantity xs <= u) by lra.
      pose proof (IH _ v Hrest Hfit'). lra.
Qed.

Lemma remainingStock_weighted getTime transactions pid startDate endDate :
  let seen := inRange getTime transactions pid startDate endDate in
  remainingStock
    (calculateInventoryCost getTime transactions pid weighted startDate endDate)
  = fst (weightedTotals (entriesOf seen) (exitsOf seen)).
Proof.
  cbv zeta. unfold calculateInventoryCost, inRange, entriesOf, exitsOf.
  now destruct (weightedTotals _ _).
Qed.

Lemma totalCost_weighted getTime transactions pid startDate endDate :
  let seen := inRange getTime transactions pid startDate endDate in
  totalCost
    (calculateInventoryCost getTime transactions pid weighted startDate endDate)
  = snd (weightedTotals (entriesOf seen) (exitsOf seen)).
Proof.
  cbv zeta. unfold calculateInventoryCost, inRange, entriesOf, exitsOf.
  now destruct (weightedTotals _ _).
Qed.

Lemma averageCost_weighted getTime transactions pid startDate endDate :
  let seen := inRange getTime transactions pid startDate endDate in
  averageCost
    (calculateInventoryCost getTime transactions pid weighted startDate endDate)
  = average (snd (weightedTotals (entriesOf seen) (exitsOf seen)))
            (fst (weightedTotals (entriesOf seen) (exitsOf seen))).
Proof.
  cbv zeta. unfold calculateInventoryCost, inRange, entriesOf, exitsOf.
  now destruct (weightedTotals _ _).
Qed.

(** ** Conservation of quantity *)

(** A replay that never oversells ends with a stock that is not negative. *)
Lemma covered_balance l stock :
  nonNegative l -> 0 <= stock -> covered stock l ->
  0 <= stock + Qsum quantity (entriesOf l) - Qsum quantity (exitsOf l).
Proof.
  unfold entriesOf, exitsOf, isEntry, isExit. revert stock.
  induction l as [| t l IH]; intros stock Hq Hs Hcov; simpl in *.
  - lra.
  - inversion Hq as [| ? ? Ht Hrest]; subst.
    destruct (type t); simpl.
    + assert (H0 : 0 <= stock + quantity t) by lra.
      pose proof (IH (stock + quantity t) Hrest H0 Hcov). lra.
    + destruct Hcov as [Hle Hcov].
      assert (H0 : 0 <= stock - quantity t) by lra.
      pose proof (IH (stock - quantity t) Hrest H0 Hcov). lra.
Qed.

Section Conservation.
Variable getTime : string -> option Z.
Variables (transactions : list InventoryTransaction).
Variables (pid startDate endDate : string).

Let seen := inRange getTime transactions pid startDate endDate.
Let cost method :=
  calculateInventoryCost getTime transactions pid method startDate endDate.

Lemma neverOversold_fits :
  nonNegative seen -> neverOversold getTime seen ->
  Qsum quantity (exitsOf seen) <= Qsum quantity (entriesOf seen).
Proof.
  intros Hq Hcov. unfold neverOversold in Hcov.
  pose proof (sort_Permutation (byDateAsc getTime) seen) as Hperm.
  apply covered_balance in Hcov;
    [| now apply sort_Forall | apply Qle_refl].
  unfold entriesOf, exitsOf in *.
  rewrite <- (Qsum_Permutation quantity _ _ (filter_Permutation isEntry _ _ Hperm)) in Hcov.
  rewrite <- (Qsum_Permutation quantity _ _ (filter_Permutation isExit _ _ Hperm)) in Hcov.
  lra.
Qed.

(** In exact arithmetic a replay that never oversells leaves the same
    remaining stock under the three methods. *)
Lemma conservation_of_quantity_exact :
  nonNegative seen -> neverOversold getTime seen ->
  remainingStock (cost PEPS) == remainingStock (cost UEPS)
  /\ remainingStock (cost UEPS) == remainingStock (cost weighted).
Proof.
  intros Hq Hcov.
  pose proof (neverOversold_fits Hq Hcov) as Hfit.
  pose proof (remaining_lots getTime transactions pid startDate endDate
                (byDateAsc getTime) Hq) as Hfifo.
  pose proof (remaining_lots getTime transactions pid startDate endDate
                (byDateDesc getTime) Hq) as Hlifo.
  fold seen in Hfifo, Hlifo.
  assert (Hw : remainingStock (cost weighted)
               == Qsum quantity (entriesOf seen) - Qsum quantity (exitsOf seen)).
  { unfold cost. rewrite remainingStock_weighted. fold seen.
    unfold weightedTotals.
    destruct (fold_left addEntry (entriesOf seen) (0, 0)) as [u v] eqn:Hfold.
    pose proof (fold_addEntry (entriesOf seen) 0 0) as [Hu _].
    rewrite Hfold in Hu. simpl in Hu.
    rewrite fold_applyExit_units;
      [lra | now apply nonNegative_filter | lra]. }
  change (remainingStock (cost PEPS)) with
    (sumQuantity (processExits (sort (byDateAsc getTime) (exitsOf seen))
                               (sort (byDateAsc getTime) (entriesOf seen)))).
  change (remainingStock (cost UEPS)) with
    (sumQuantity (processExits (sort (byDateAsc getTime) (exitsOf seen))
                               (sort (byDateDesc getTime) (entriesOf seen)))).
  rewrite Hw, Hfifo, Hlifo. split; [reflexivity |].
  destruct (Q.max_spec 0 (Qsum quantity (entriesOf seen)
                          - Qsum quantity (exitsOf seen))) as [[? ->] | [? ->]]; lra.
Qed.

(** C1, amended: for in-range quantities that are whole numbers, not
    negative and together below 2^53: when, replaying the in-range
    transactions of the product in date order, no exit is larger than the
    stock on hand at that moment, the three methods return the same
    remaining stock. *)
Theorem conservation_of_quantity :
  nonNegative seen -> wholeQuantities seen -> neverOversold getTime seen ->
  remainingStock (cost PEPS) == remainingStock (cost UEPS)
  /\ remainingStock (cost UEPS) == remainingStock (cost weighted).
Proof.
  intros Hq _ Hcov. exact (conservation_of_quantity_exact Hq Hcov).
Qed.
End Conservation.

(** ** The weighted average *)





Lemma average_positive v u : 0 < u -> average v u = v / u.
Proof. intro Hu. unfold average. apply Qltb_lt in Hu. now rewrite Hu. Qed.

Lemma average_zero v u : u <= 0 -> average v u = 0.
Proof. intro Hu. unfold average. apply Qltb_ge in Hu. now rewrite Hu. Qed.

Section WeightedAverage.
Variable getTime : string -> option Z.
Variables (transactions : list InventoryTransaction).
Variables (pid startDate endDate : string).

Let seen := inRange getTime transactions pid startDate endDate.
Let cost method :=
  calculateInventoryCost getTime transactions pid method startDate endDate.


End WeightedAverage.


(** The ledger with stock carried over from December is one that
    [addTransaction] accepts, draft by draft. *)
Lemma carriedOverLedger_accepted :
  exists l1 l2,
    addTransaction [] "t1" decemberEntry = inr l1
    /\ addTransaction l1 "t2" januaryEntry = inr l2
    /\ addTransaction l2 "t3" januaryExit = inr carriedOverLedger.
Proof.
  do 2 eexists. repeat split; vm_compute; reflexivity.
Qed.

(** C4 on the code: valuing January alone, the weighted method sees 5 units
    at 4 and an exit of 12, and returns a remaining stock of -7 and a total
    cost of -28; PEPS and UEPS return a remaining stock of 0 there. *)
Theorem weighted_carriedOver_negative :
  remainingStock (carriedOver weighted) == -(7)
  /\ totalCost (carriedOver weighted) == -(28)
  /\ remainingStock (carriedOver weighted) < 0
  /\ remainingStock (carriedOver PEPS) == 0
  /\ remainingStock (carriedOver UEPS) == 0.
Proof.
  repeat split; vm_compute; reflexivity.
Qed.

(** ** PEPS against UEPS *)

Section CostOrder.
Variables sigma theta : Q.

Lemma surplus_app l1 l2 :
  surplus sigma theta (l1 ++ l2)
  == surplus sigma theta l1 + surplus sigma theta l2.
Proof. apply Qsum_app. Qed.

(** No valuation of what is kept exceeds the price [theta] per unit by
    more than the surplus. *)
Lemma surplus_bound kept :
  nonNegative kept ->
  sigma * (Qsum (fun e => quantity e * unitCost e) kept
           - theta * Qsum quantity kept)
  <= surplus sigma theta kept.
Proof.
  unfold surplus. induction 1 as [| e l He _ IH]; simpl.
  - lra.
  - pose proof (Q.le_max_r 0 (sigma * (unitCost e - theta))) as Hm.
    set (m := Qmax 0 (sigma * (unitCost e - theta))) in *. clearbody m.
    nra.
Qed.

Lemma surplus_consume x lots :
  nonNegative lots ->
  surplus sigma theta (consume x lots) <= surplus sigma theta lots.
Proof.
  unfold surplus. revert x.
  induction lots as [| e lots IH]; intros x Hall; simpl; [lra |].
  inversion Hall as [| ? ? He Hrest]; subst.
  pose proof (Q.le_max_l 0 (sigma * (unitCost e - theta))) as Hm.
  qcase (Qltb 0 x) Hx; [| simpl; lra].
  qcase (Qle_bool (quantity e) x) Hq.
  - specialize (IH (x - quantity e) Hrest).
    set (m := Qmax 0 (sigma * (unitCost e - theta))) in *. clearbody m.
    nra.
  - simpl.
    set (m := Qmax 0 (sigma * (unitCost e - theta))) in *. clearbody m.
    nra.
Qed.

Lemma surplus_processExits sortedExits lots :
  nonNegative lots ->
  surplus sigma theta (processExits sortedExits lots)
  <= surplus sigma theta lots.
Proof.
  unfold processExits. revert lots.
  induction sortedExits as [| x xs IH]; intros lots Hlots; simpl.
  - lra.
  - eapply Qle_trans; [apply IH; now apply consume_nonNegative |].
    now apply surplus_consume.
Qed.

(** Lots that do not lie beyond [theta] carry no surplus; lots that all
    lie beyond it carry their whole distance. *)
Lemma surplus_below l :
  Forall (fun e => sigma * unitCost e <= sigma * theta) l ->
  surplus sigma theta l == 0.
Proof.
  unfold surplus. induction 1 as [| e l He _ IH]; simpl; [reflexivity |].
  rewrite IH.
  rewrite (Q.max_l 0 (sigma * (unitCost e - theta))) by lra. lra.
Qed.

Lemma surplus_above l :
  Forall (fun e => sigma * theta <= sigma * unitCost e) l ->
  surplus sigma theta l
  == sigma * (Qsum (fun e => quantity e * unitCost e) l
              - theta * Qsum quantity l).
Proof.
  unfold surplus. induction 1 as [| e l He _ IH]; simpl; [lra |].
  rewrite IH.
  rewrite (Q.max_r 0 (sigma * (unitCost e - theta))) by lra. lra.
Qed.
End CostOrder.

Lemma StronglySorted_split {A : Type} (R : A -> A -> Prop) pre e rest :
  StronglySorted R (pre ++ e :: rest) ->
  Forall (fun a => R a e) pre /\ Forall (R e) rest.
Proof.
  induction pre as [| a pre IH]; simpl; intro H;
    inversion H as [| ? ? Hsorted Hall]; subst.
  - split; [constructor | exact Hall].
  - destruct (IH Hsorted) as [H1 H2]. split; [| exact H2].
    constructor; [| exact H1].
    rewrite Forall_forall in Hall. apply Hall.
    apply in_or_app. right. now left.
Qed.

(** When the queue is cost-sorted and the price is that of the lot the
    exits stopped in, the surplus of the whole queue is what the kept tail
    is worth beyond that price. *)
Lemma surplus_tail sigma pre e q rest :
  costSorted sigma (pre ++ e :: rest) ->
  surplus sigma (unitCost e) (pre ++ e :: rest)
  == sigma * (Qsum (fun a => quantity a * unitCost a) (withQuantity e q :: rest)
              - unitCost e * Qsum quantity (withQuantity e q :: rest)).
Proof.
  intro Hsorted. apply StronglySorted_split in Hsorted as [Hpre Hrest].
  rewrite surplus_app, (surplus_below sigma (unitCost e) pre Hpre).
  change (e :: rest) with ([e] ++ rest).
  rewrite surplus_app, (surplus_above sigma (unitCost e) rest Hrest).
  rewrite (surplus_below sigma (unitCost e) [e]) by (repeat constructor; lra).
  simpl. lra.
Qed.

Lemma withQuantity_same e : withQuantity e (quantity e) = e.
Proof. now destruct e. Qed.

Lemma remnant_refl lots : nonNegative lots -> remnant lots lots.
Proof.
  intro Hq. destruct lots as [| e rest]; [now left | right].
  exists [], e, (quantity e), rest. rewrite withQuantity_same.
  inversion Hq; subst. repeat split; try reflexivity; lra.
Qed.

(** Drawing from a tail of the queue leaves a remnant of the queue. *)
Lemma remnant_consume_tail lots x pre rest :
  nonNegative lots -> lots = pre ++ rest -> remnant lots (consume x rest).
Proof.
  intro Hq. revert x pre.
  induction rest as [| e rest IH]; intros x pre Heq; simpl; [now left |].
  assert (He : 0 <= quantity e).
  { unfold nonNegative in Hq. rewrite Forall_forall in Hq. apply Hq.
    rewrite Heq. apply in_or_app. right. now left. }
  qcase (Qltb 0 x) Hx.
  - qcase (Qle_bool (quantity e) x) Hle.
    + apply (IH _ (pre ++ [e])). now rewrite <- app_assoc.
    + right. exists pre, e, (quantity e - x), rest.
      repeat split; try assumption; try reflexivity; lra.
  - right. exists pre, e, (quantity e), rest. rewrite withQuantity_same.
    repeat split; try assumption; try reflexivity; lra.
Qed.

Lemma remnant_consume lots kept x :
  nonNegative lots -> remnant lots kept -> remnant lots (consume x kept).
Proof.
  intros Hq [-> | (pre & e & q & rest & Hlots & -> & Hq0 & Hq1)];
    [now left |].
  simpl. qcase (Qltb 0 x) Hx.
  - qcase (Qle_bool q x) Hle.
    + apply (remnant_consume_tail lots _ (pre ++ [e]) rest Hq).
      now rewrite <- app_assoc.
    + right. exists pre, e, (q - x), rest.
      repeat split; try assumption; try reflexivity; lra.
  - right. exists pre, e, q, rest. repeat split; assumption.
Qed.

Lemma remnant_processExits lots sortedExits :
  nonNegative lots -> remnant lots (processExits sortedExits lots).
Proof.
  intro Hq. unfold processExits.
  assert (H : forall kept, remnant lots kept ->
                remnant lots (fold_left (fun l exit_ => consume (quantity exit_) l)
                                        sortedExits kept)).
  { induction sortedExits as [| x xs IH]; intros kept Hk; simpl; [exact Hk |].
    apply IH. now apply remnant_consume. }
  apply H. now apply remnant_refl.
Qed.

(** A remnant of a cost-sorted queue is worth, beyond some price per unit,
    at least the surplus of the whole queue. *)
Lemma remnant_tight sigma lots kept :
  costSorted sigma lots -> remnant lots kept ->
  exists theta,
    surplus sigma theta lots
    <= sigma * (Qsum (fun e => quantity e * unitCost e) kept
                - theta * Qsum quantity kept).
Proof.
  intros Hsorted [-> | (pre & e & q & rest & -> & -> & _)].
  - destruct lots as [| a l] using rev_ind.
    + exists 0. simpl. lra.
    + clear IHl. exists (unitCost a).
      rewrite (surplus_tail sigma l a 0 [] Hsorted). simpl. lra.
  - exists (unitCost e). rewrite (surplus_tail sigma pre e q rest Hsorted).
    apply Qle_refl.
Qed.

Lemma Sorted_costSorted sigma (R : InventoryTransaction -> InventoryTransaction -> Prop) l :
  (forall a b, R a b -> sigma * unitCost a <= sigma * unitCost b) ->
  (forall a b c, R a b -> R b c -> R a c) ->
  Sorted R l -> costSorted sigma l.
Proof.
  intros Hmono Htrans Hsorted.
  apply (Sorted_StronglySorted Htrans) in Hsorted.
  unfold costSorted.
  induction Hsorted as [| a l _ IH Hall]; constructor; [exact IH |].
  eapply Forall_impl; [| exact Hall]. intros b. apply Hmono.
Qed.

Section CostComparison.
Variable getTime : string -> option Z.
Variables (transactions : list InventoryTransaction).
Variables (pid startDate endDate : string).

Let seen := inRange getTime transactions pid startDate endDate.
Let cost method :=
  calculateInventoryCost getTime transactions pid method startDate endDate.

(** Drawing the oldest lots first from a queue whose costs are ordered in
    the direction [sigma] keeps, in that direction, at least the value
    that any other drawing order keeps. *)
Lemma fifo_keeps_most sigma :
  nonNegative seen ->
  costSorted sigma (sort (byDateAsc getTime) (entriesOf seen)) ->
  sigma * totalCost (cost UEPS) <= sigma * totalCost (cost PEPS).
Proof.
  intros Hq Hsorted.
  set (queue := sort (byDateAsc getTime) (entriesOf seen)) in *.
  set (stack := sort (byDateDesc getTime) (entriesOf seen)).
  set (sortedExits := sort (byDateAsc getTime) (exitsOf seen)).
  change (totalCost (cost PEPS)) with (sumCost (processExits sortedExits queue)).
  change (totalCost (cost UEPS)) with (sumCost (processExits sortedExits stack)).
  assert (Hqueue : nonNegative queue)
    by (apply sort_Forall; now apply nonNegative_filter).
  assert (Hstack : nonNegative stack)
    by (apply sort_Forall; now apply nonNegative_filter).
  destruct (remnant_tight sigma queue (processExits sortedExits queue) Hsorted
              (remnant_processExits queue sortedExits Hqueue))
    as [theta Htight].
  pose proof (surplus_bound sigma theta (processExits sortedExits stack)
                (processExits_nonNegative sortedExits stack Hstack)) as Hbound.
  pose proof (surplus_processExits sigma theta sortedExits stack Hstack) as Hdraw.
  assert (Hperm : Permutation stack queue).
  { unfold stack, queue. rewrite <- !sort_Permutation. reflexivity. }
  assert (Hsame : surplus sigma theta stack == surplus sigma theta queue)
    by (apply Qsum_Permutation; exact Hperm).
  assert (Hleft : Qsum quantity (processExits sortedExits stack)
                  == Qsum quantity (processExits sortedExits queue)).
  { pose proof (remaining_lots getTime transactions pid startDate endDate
                  (byDateAsc getTime) Hq) as Hfifo.
    pose proof (remaining_lots getTime transactions pid startDate endDate
                  (byDateDesc getTime) Hq) as Hlifo.
    rewrite sumQuantity_Qsum in Hfifo, Hlifo.
    fold seen in Hfifo, Hlifo. fold queue in Hfifo. fold stack in Hlifo.
    fold sortedExits in Hfifo, Hlifo. rewrite Hfifo, Hlifo. reflexivity. }
  rewrite !sumCost_Qsum. rewrite Hleft in Hbound. lra.
Qed.

(** In exact arithmetic PEPS keeps the dearer lots when costs rise along
    the date order and the cheaper lots when they fall. *)
Lemma fifo_lifo_totalCost_exact :
  nonNegative seen ->
  (costsNonDecreasing getTime seen ->
   totalCost (cost UEPS) <= totalCost (cost PEPS))
  /\ (costsNonIncreasing getTime seen ->
      totalCost (cost PEPS) <= totalCost (cost UEPS)).
Proof.
  intro Hq. split; intro Hcosts.
  - assert (H : 1 * totalCost (cost UEPS) <= 1 * totalCost (cost PEPS)).
    { apply fifo_keeps_most; [exact Hq |].
      eapply Sorted_costSorted; [| | exact Hcosts]; cbv beta; intros; lra. }
    lra.
  - assert (H : -(1) * totalCost (cost UEPS) <= -(1) * totalCost (cost PEPS)).
    { apply fifo_keeps_most; [exact Hq |].
      eapply Sorted_costSorted; [| | exact Hcosts]; cbv beta; intros; lra. }
    lra.
Qed.

(** C7, amended: for in-range quantities that are whole numbers, not
    negative and together below 2^53, and entry unit costs that are whole
    numbers with a total value below 2^53: when the unit costs of the
    in-range entries do not fall along the date order, the total cost under
    PEPS is at least the total cost under UEPS; when they do not rise along
    the date order, the total cost under PEPS is at most the total cost
    under UEPS. *)
Theorem fifo_lifo_totalCost :
  nonNegative seen -> wholeQuantities seen -> wholeValues (entriesOf seen) ->
  (costsNonDecreasing getTime seen ->
   totalCost (cost UEPS) <= totalCost (cost PEPS))
  /\ (costsNonIncreasing getTime seen ->
      totalCost (cost PEPS) <= totalCost (cost UEPS)).
Proof.
  intros Hq _ _. exact (fifo_lifo_totalCost_exact Hq).
Qed.
End CostComparison.

(** * The theorems at work on the sample ledgers *)

(** Closes a goal on concrete numbers by evaluation. *)
Ltac evaluated :=
  vm_compute; first [reflexivity | discriminate | tauto | lia].

(** The quantities of the January ledger are counts. *)
Lemma januaryLedger_nonNegative :
  nonNegative (inRange isoTime januaryLedger "p1" "2024-01-01" "2024-01-31").
Proof.
  repeat (constructor; [evaluated |]). constructor.
Defined.

(** Proves that the numbers of a sample are whole and below the limit. *)
Ltac whole :=
  split; [repeat (constructor; [evaluated |]); constructor | evaluated].

(** The quantities and unit costs of the January ledger are whole. *)
Lemma januaryLedger_whole :
  wholeQuantities (inRange isoTime januaryLedger "p1" "2024-01-01" "2024-01-31").
Proof. whole. Qed.

Lemma januaryLedger_wholeValues :
  wholeValues (entriesOf (inRange isoTime januaryLedger "p1"
                                  "2024-01-01" "2024-01-31")).
Proof. whole. Qed.

(** The January ledger never oversells, and the three methods agree on the
    8 units left. *)
Lemma conservation_of_quantity_january :
  neverOversold isoTime (inRange isoTime januaryLedger "p1" "2024-01-01" "2024-01-31")
  /\ remainingStock (january PEPS) == remainingStock (january UEPS)
  /\ remainingStock (january UEPS) == remainingStock (january weighted).
Proof.
  assert (H : neverOversold isoTime
                (inRange isoTime januaryLedger "p1" "2024-01-01" "2024-01-31")).
  { split; [evaluated | exact I]. }
  split; [exact H |].
  exact (conservation_of_quantity isoTime januaryLedger "p1"
           "2024-01-01" "2024-01-31" januaryLedger_nonNegative
           januaryLedger_whole H).
Defined.

(** A product without transactions has stock 0, and reading the January
    ledger backwards gives the same stock. *)
Lemma getProductStock_signed_sum_january :
  getProductStock januaryLedger "p2" = 0
  /\ getProductStock (rev januaryLedger) "p1" == getProductStock januaryLedger "p1".
Proof.
  destruct (getProductStock_signed_sum januaryLedger "p2") as (Hnone & _).
  destruct (getProductStock_signed_sum januaryLedger "p1") as (_ & Hwhole).
  split.
  - apply Hnone. intros t Ht.
    repeat (destruct Ht as [<- | Ht]; [discriminate |]). destruct Ht.
  - apply Hwhole; [whole | apply Permutation_rev].
Defined.

(** A product whose stock equals its minimum is reported. *)
Lemma getLowStockProducts_inclusive_january :
  getProductStock januaryLedger (Product.id sampleProduct)
  == Product.minStock sampleProduct
  /\ In sampleProduct (getLowStockProducts [sampleProduct] januaryLedger).
Proof.
  assert (H : getProductStock januaryLedger (Product.id sampleProduct)
              == Product.minStock sampleProduct) by evaluated.
  split; [exact H |].
  destruct (getLowStockProducts_inclusive [sampleProduct] januaryLedger)
    as [_ Hin].
  apply Hin; [now left | exact H].
Defined.

(** On the January ledger (8 units in stock) an entry is accepted and an
    exit of 12 is rejected, leaving the ledger as it was. *)
Lemma addTransaction_gate_january :
  (exists next, addTransaction januaryLedger "t4" januaryEntry = inr next)
  /\ ledgerAfter januaryLedger (addTransaction januaryLedger "t4" januaryExit)
     = januaryLedger.
Proof.
  destruct (addTransaction_gate januaryLedger "t4" januaryEntry)
    as (_ & _ & Hentry & _).
  destruct (addTransaction_gate januaryLedger "t4" januaryExit)
    as (Hiff & Hrej & _ & _).
  split.
  - apply Hentry. reflexivity.
  - apply (Hrej notEnoughStock). apply Hiff. split; [reflexivity | evaluated].
Defined.

(** An inverted range and an unknown product both give the empty list. *)
Lemma getProductTransactions_exact_inverted :
  laterThan isoTime "2024-02-01" "2024-01-01"
  /\ getProductTransactions isoTime januaryLedger "p1" "2024-02-01" "2024-01-01" = []
  /\ getProductTransactions isoTime januaryLedger "p2" "2024-01-01" "2024-01-31" = [].
Proof.
  assert (H : laterThan isoTime "2024-02-01" "2024-01-01").
  { do 2 eexists. repeat split; evaluated. }
  destruct (getProductTransactions_exact isoTime januaryLedger "p1"
              "2024-02-01" "2024-01-01") as (_ & _ & Hinverted).
  destruct (getProductTransactions_exact isoTime januaryLedger "p2"
              "2024-01-01" "2024-01-31") as (_ & Hnone & _).
  split; [exact H | split].
  - apply Hinverted. exact H.
  - apply Hnone. intros t Ht [Hpid _].
    repeat (destruct Ht as [<- | Ht]; [discriminate |]). destruct Ht.
Defined.

(** An exit of 12 against 5 in-range units leaves nothing under PEPS and
    UEPS. *)
Lemma fifo_lifo_remainingStock_carriedOver :
  remainingStock (carriedOver PEPS) == 0
  /\ remainingStock (carriedOver UEPS) == 0.
Proof.
  assert (Hq : nonNegative (inRange isoTime carriedOverLedger "p1"
                              "2024-01-01" "2024-01-31")).
  { repeat (constructor; [evaluated |]). constructor. }
  assert (Hw : wholeQuantities (inRange isoTime carriedOverLedger "p1"
                                  "2024-01-01" "2024-01-31")) by whole.
  destruct (fifo_lifo_remainingStock isoTime carriedOverLedger "p1"
              "2024-01-01" "2024-01-31" Hq Hw) as [H1 H2].
  split; [rewrite H1 | rewrite H2]; evaluated.
Defined.


(** Rising costs: UEPS 40 against PEPS 56.  Falling costs: PEPS 40 against
    UEPS 56. *)
Lemma fifo_lifo_totalCost_samples :
  totalCost (january UEPS) <= totalCost (january PEPS)
  /\ totalCost (falling PEPS) <= totalCost (falling UEPS).
Proof.
  assert (Hq : nonNegative (inRange isoTime fallingLedger "p1"
                              "2024-01-01" "2024-01-31")).
  { repeat (constructor; [evaluated |]). constructor. }
  assert (Hw : wholeQuantities (inRange isoTime fallingLedger "p1"
                                  "2024-01-01" "2024-01-31")) by whole.
  assert (Hv : wholeValues (entriesOf (inRange isoTime fallingLedger "p1"
                                         "2024-01-01" "2024-01-31")))
    by whole.
  destruct (fifo_lifo_totalCost isoTime januaryLedger "p1"
              "2024-01-01" "2024-01-31" januaryLedger_nonNegative
              januaryLedger_whole januaryLedger_wholeValues)
    as [Hrising _].
  destruct (fifo_lifo_totalCost isoTime fallingLedger "p1"
              "2024-01-01" "2024-01-31" Hq Hw Hv) as [_ Hfalling].
  split.
  - apply Hrising. repeat constructor; evaluated.
  - apply Hfalling. repeat constructor; evaluated.
Defined.


(** * The catalogue *)

(** ** Lists keyed by an id

    [updateCategory] and [updateProduct] are the same map, and
    [deleteCategory] and [deleteProduct] the same filter, over lists keyed
    by their [id] field. *)

Section Keyed.
Context {A : Type} (key : A -> string).

Lemma replaced_keys u l : map key (replaced key u l) = map key l.
Proof.
  unfold replaced. induction l as [| x l IH]; simpl; [reflexivity |].
  rewrite IH. destruct (String.eqb_spec (key x) (key u)) as [-> | _];
    reflexivity.
Qed.

Lemma replaced_absent u l : ~ In (key u) (map key l) -> replaced key u l = l.
Proof.
  unfold replaced. induction l as [| x l IH]; simpl; intro H; [reflexivity |].
  destruct (String.eqb_spec (key x) (key u)) as [Heq | _].
  - exfalso. apply H. now left.
  - rewrite IH; [reflexivity |]. intro Hin. apply H. now right.
Qed.

Lemma replaced_twice u l : replaced key u (replaced key u l) = replaced key u l.
Proof.
  unfold replaced. rewrite map_map. apply map_ext. intro x.
  destruct (String.eqb_spec (key x) (key u)) as [_ | Hne].
  - now rewrite String.eqb_refl.
  - apply String.eqb_neq in Hne. now rewrite Hne.
Qed.

Lemma replaced_In u l y :
  In y (replaced key u l)
  <-> (y = u /\ In (key u) (map key l)) \/ (In y l /\ key y <> key u).
Proof.
  unfold replaced. induction l as [| x l IH]; simpl.
  - split; [tauto | intros [[_ []] | [[] _]]].
  - rewrite IH. destruct (String.eqb_spec (key x) (key u)) as [Heq | Hne];
      intuition (subst; auto; try contradiction; try congruence).
Qed.

Lemma without_In k l x : In x (without key k l) <-> In x l /\ key x <> k.
Proof.
  unfold without. rewrite filter_In, negb_true_iff, String.eqb_neq.
  reflexivity.
Qed.

Lemma without_keys k l : ~ In k (map key (without key k l)).
Proof.
  rewrite in_map_iff. intros (x & Hk & Hin).
  apply without_In in Hin. tauto.
Qed.

Lemma without_absent k l : ~ In k (map key l) -> without key k l = l.
Proof.
  unfold without. induction l as [| x l IH]; simpl; intro H; [reflexivity |].
  destruct (String.eqb_spec (key x) k) as [Heq | _]; simpl.
  - exfalso. apply H. now left.
  - rewrite IH; [reflexivity |]. intro Hin. apply H. now right.
Qed.

Lemma without_NoDup k l : NoDup (map key l) -> NoDup (map key (without key k l)).
Proof.
  unfold without. induction l as [| x l IH]; simpl; intro H; [constructor |].
  inversion H as [| ? ? Hx Hl]; subst.
  destruct (negb (String.eqb (key x) k)); simpl; [| now apply IH].
  constructor; [| now apply IH].
  rewrite in_map_iff in *. intros (y & Hy & Hin). apply Hx.
  exists y. split; [exact Hy |]. apply filter_In in Hin. tauto.
Qed.

Lemma appended_NoDup k x l :
  key x = k -> NoDup (map key l) -> ~ In k (map key l) ->
  NoDup (map key (l ++ [x])).
Proof.
  intros Hk Hl Hfresh. rewrite map_app. simpl. rewrite Hk.
  apply NoDup_app; [exact Hl | repeat constructor; intros [] |].
  intros a Ha [<- | []]. contradiction.
Qed.
End Keyed.

Lemma updateCategory_replaced categories updated :
  updateCategory categories updated = replaced Category.id updated categories.
Proof. reflexivity. Qed.

Lemma updateProduct_replaced products updated :
  updateProduct products updated = replaced Product.id updated products.
Proof. reflexivity. Qed.

Lemma existsb_false_none {A : Type} (f : A -> bool) (l : list A) :
  existsb f l = false <-> forall a, In a l -> f a = false.
Proof.
  rewrite <- not_true_iff_false, existsb_exists. split.
  - intros H a Ha. apply not_true_iff_false. intro Hf. apply H. now exists a.
  - intros H (a & Ha & Hf). rewrite (H a Ha) in Hf. discriminate.
Qed.

(** ** Categories *)

(** X1: the ids of the categories stay pairwise distinct under the three
    category operations: [addCategory] with an id not yet in use,
    [updateCategory], and a [deleteCategory] that goes through. *)
Theorem category_ids_distinct categories :
  NoDup (categoryIds categories) ->
  (forall newId draft,
      ~ In newId (categoryIds categories) ->
      NoDup (categoryIds (addCategory categories newId draft)))
  /\ (forall updated, NoDup (categoryIds (updateCategory categories updated)))
  /\ (forall products id_ next,
        deleteCategory products categories id_ = inr next ->
        NoDup (categoryIds next)).
Proof.
  intro Hids. unfold categoryIds in *. repeat split.
  - intros newId draft Hfresh. unfold addCategory.
    now apply (appended_NoDup Category.id newId).
  - intro updated. rewrite updateCategory_replaced, replaced_keys. exact Hids.
  - intros products id_ next. unfold deleteCategory.
    destruct (existsb _ products); [discriminate |]. intros [= <-].
    now apply (without_NoDup Category.id).
Qed.

(** X2: [updateCategory] puts the updated category in the place of every
    category with its id and leaves the others, the order and the ids as
    they are; with an id that no category has it changes nothing; doing it
    twice is doing it once. *)
Theorem updateCategory_replaces categories updated :
  categoryIds (updateCategory categories updated) = categoryIds categories
  /\ (forall c, In c (updateCategory categories updated) <->
                (c = updated /\ In (Category.id updated) (categoryIds categories))
                \/ (In c categories /\ Category.id c <> Category.id updated))
  /\ (~ In (Category.id updated) (categoryIds categories) ->
      updateCategory categories updated = categories)
  /\ updateCategory (updateCategory categories updated) updated
     = updateCategory categories updated.
Proof.
  unfold categoryIds. rewrite !updateCategory_replaced. repeat split.
  - apply replaced_keys.
  - now apply replaced_In.
  - now apply replaced_In.
  - apply replaced_absent.
  - apply replaced_twice.
Qed.

(** X3: [deleteCategory] throws exactly when some product belongs to the
    category, and then with the in-use message; otherwise it returns the
    list of categories filtered, in order and with repetitions, by having
    another id, so that the id is gone, and a category list without the id
    is returned as it is. *)
Theorem deleteCategory_guard products categories id_ :
  let outcome := deleteCategory products categories id_ in
  (outcome = inl categoryInUse <->
     exists p, In p products /\ Product.categoryId p = id_)
  /\ (forall msg, outcome = inl msg -> msg = categoryInUse)
  /\ (forall next, outcome = inr next ->
        (exists keep : Category.t -> bool,
            (forall c, keep c = true <-> Category.id c <> id_)
            /\ next = filter keep categories)
        /\ (forall c, In c next <-> In c categories /\ Category.id c <> id_)
        /\ ~ In id_ (categoryIds next)
        /\ (~ In id_ (categoryIds categories) -> next = categories)).
Proof.
  cbv zeta. unfold deleteCategory, categoryIds.
  destruct (existsb _ products) eqn:Huse.
  - apply existsb_exists in Huse as (p & Hp & Heq).
    apply String.eqb_eq in Heq. split; [| split].
    + split; [intros _; now exists p | reflexivity].
    + now intros msg [= <-].
    + discriminate.
  - rewrite existsb_false_none in Huse. split; [| split].
    + split; [discriminate |]. intros (p & Hp & Heq).
      specialize (Huse p Hp). apply String.eqb_neq in Huse. contradiction.
    + discriminate.
    + intros next [= <-]. split; [| split; [| split]].
      * eexists. split; [| reflexivity]. intro c. cbv beta.
        rewrite negb_true_iff. apply String.eqb_neq.
      * intro c. apply (without_In Category.id).
      * apply (without_keys Category.id).
      * apply (without_absent Category.id).
Qed.

(** ** Products *)

(** X4: the ids of the products stay pairwise distinct under [addProduct]
    with an id not yet in use, [updateProduct], and a [deleteProduct] that
    goes through. *)
Theorem product_ids_distinct products :
  NoDup (productIds products) ->
  (forall newId draft,
      ~ In newId (productIds products) ->
      NoDup (productIds (addProduct products newId draft)))
  /\ (forall updated, NoDup (productIds (updateProduct products updated)))
  /\ (forall transactions id_ next,
        deleteProduct transactions products id_ = inr next ->
        NoDup (productIds next)).
Proof.
  intro Hids. unfold productIds in *. repeat split.
  - intros newId draft Hfresh. unfold addProduct.
    now apply (appended_NoDup Product.id newId).
  - intro updated. rewrite updateProduct_replaced, replaced_keys. exact Hids.
  - intros transactions id_ next. unfold deleteProduct.
    destruct (existsb _ transactions); [discriminate |]. intros [= <-].
    now apply (without_NoDup Product.id).
Qed.

(** X5: [updateProduct] puts the updated product in the place of every
    product with its id and leaves the others, the order and the ids as they
    are; with an id that no product has it changes nothing; and since stock
    is read from the ledger by id, no product's stock row changes. *)
Theorem updateProduct_replaces products updated :
  productIds (updateProduct products updated) = productIds products
  /\ (forall p, In p (updateProduct products updated) <->
                (p = updated /\ In (Product.id updated) (productIds products))
                \/ (In p products /\ Product.id p <> Product.id updated))
  /\ (~ In (Product.id updated) (productIds products) ->
      updateProduct products updated = products)
  /\ (forall transactions,
        map (fun p => getProductStock transactions (Product.id p))
            (updateProduct products updated)
        = map (fun p => getProductStock transactions (Product.id p)) products).
Proof.
  unfold productIds. rewrite !updateProduct_replaced. repeat split.
  - apply replaced_keys.
  - now apply replaced_In.
  - now apply replaced_In.
  - apply replaced_absent.
  - intro transactions.
    pose proof (replaced_keys Product.id updated products) as Hkeys.
    rewrite <- (map_map Product.id (getProductStock transactions)).
    rewrite Hkeys. now rewrite map_map.
Qed.

(** X6: [deleteProduct] throws exactly when the ledger holds a transaction
    of the product; so a product that can be deleted has a current stock of
    0, and the deletion returns the list of products filtered, in order and
    with repetitions, by having another id. *)
Theorem deleteProduct_guard transactions products id_ :
  let outcome := deleteProduct transactions products id_ in
  (outcome = inl productHasTransactions <->
     exists t, In t transactions /\ productId t = id_)
  /\ (forall msg, outcome = inl msg -> msg = productHasTransactions)
  /\ (forall next, outcome = inr next ->
        getProductStock transactions id_ = 0
        /\ (exists keep : Product.t -> bool,
              (forall p, keep p = true <-> Product.id p <> id_)
              /\ next = filter keep products)
        /\ (forall p, In p next <-> In p products /\ Product.id p <> id_)
        /\ ~ In id_ (productIds next)).
Proof.
  cbv zeta. unfold deleteProduct, productIds.
  destruct (existsb _ transactions) eqn:Huse.
  - apply existsb_exists in Huse as (t & Ht & Heq).
    apply String.eqb_eq in Heq. split; [| split].
    + split; [intros _; now exists t | reflexivity].
    + now intros msg [= <-].
    + discriminate.
  - rewrite existsb_false_none in Huse. split; [| split].
    + split; [discriminate |]. intros (t & Ht & Heq).
      specialize (Huse t Ht). apply String.eqb_neq in Huse. contradiction.
    + discriminate.
    + intros next [= <-]. split; [| split; [| split]].
      * unfold getProductStock. now rewrite (filter_none _ _ Huse).
      * eexists. split; [| reflexivity]. intro p. cbv beta.
        rewrite negb_true_iff. apply String.eqb_neq.
      * intro p. apply (without_In Product.id).
      * apply (without_keys Product.id).
Qed.

(** X7: once [addTransaction] has accepted a movement of a product, the
    product cannot be deleted any more; and a deletion that the ledger
    blocks stays blocked after every further accepted movement. *)
Theorem deleteProduct_after_addTransaction transactions newId draft next :
  addTransaction transactions newId draft = inr next ->
  forall products,
    deleteProduct next products (Draft.productId draft)
    = inl productHasTransactions
    /\ (forall id_,
          deleteProduct transactions products id_ = inl productHasTransactions ->
          deleteProduct next products id_ = inl productHasTransactions).
Proof.
  intros Hadd products.
  assert (Hnext : next = transactions ++ [newTransaction newId draft]).
  { unfold addTransaction in Hadd.
    destruct (match Draft.type draft with entry => _ | exit => _ end);
      [discriminate | now injection Hadd as <-]. }
  subst next. unfold deleteProduct. split.
  - rewrite existsb_app. simpl. rewrite String.eqb_refl.
    now rewrite orb_true_r.
  - intros id_. rewrite existsb_app.
    destruct (existsb _ transactions); [reflexivity | discriminate].
Qed.

(** X8: [getCategoryStock] has one row for each product of the category, in
    catalogue order; the stock of a row is the current stock of its
    product; and a product of the category is reported by
    [getLowStockProducts] exactly when a row of its id has a stock of at
    most its [minStock]. *)
Theorem getCategoryStock_rows products transactions categoryId :
  let rows := getCategoryStock products transactions categoryId in
  map StockRow.productId rows
  = productIds (filter (fun p => String.eqb (Product.categoryId p) categoryId)
                       products)
  /\ (forall row, In row rows ->
        StockRow.stock row
        = getProductStock transactions (StockRow.productId row))
  /\ (forall p, In p products -> Product.categoryId p = categoryId ->
        (In p (getLowStockProducts products transactions) <->
         exists row, In row rows /\ StockRow.productId row = Product.id p
                     /\ StockRow.stock row <= Product.minStock p)).
Proof.
  cbv zeta. unfold getCategoryStock, productIds. split; [| split].
  - rewrite map_map. reflexivity.
  - intros row Hrow. apply in_map_iff in Hrow as (p & <- & _). reflexivity.
  - intros p Hp Hcat. unfold getLowStockProducts.
    rewrite filter_In, Qle_bool_iff. split.
    + intros [_ Hlow].
      exists (StockRow.mk (Product.id p)
                (getProductStock transactions (Product.id p))).
      split; [| split; [reflexivity | exact Hlow]].
      apply in_map_iff. exists p. split; [reflexivity |].
      apply filter_In. split; [exact Hp |]. now apply String.eqb_eq.
    + intros (row & Hrow & Hid & Hlow). split; [exact Hp |].
      apply in_map_iff in Hrow as (p' & <- & _). simpl in *.
      now rewrite <- Hid.
Qed.

(** * The ledger behind the gate *)

Lemma addTransaction_accepted transactions newId draft next :
  addTransaction transactions newId draft = inr next ->
  next = transactions ++ [newTransaction newId draft]
  /\ (Draft.type draft = exit ->
      Draft.quantity draft
      <= getProductStock transactions (Draft.productId draft)).
Proof.
  unfold addTransaction. destruct (Draft.type draft).
  - intros [= <-]. split; [reflexivity | discriminate].
  - destruct (Qltb _ _) eqn:Hlt; [discriminate |].
    apply Qltb_ge in Hlt. intros [= <-]. now split.
Qed.

Lemma getProductStock_app transactions t pid :
  getProductStock (transactions ++ [t]) pid
  = if String.eqb (productId t) pid
    then stockStep (getProductStock transactions pid) t
    else getProductStock transactions pid.
Proof.
  unfold getProductStock. rewrite filter_app. simpl.
  destruct (String.eqb (productId t) pid).
  - now rewrite fold_left_app.
  - now rewrite app_nil_r.
Qed.

Lemma addTransaction_stock_lemma transactions newId draft next :
  addTransaction transactions newId draft = inr next ->
  let pid := Draft.productId draft in
  (Draft.type draft = entry ->
   getProductStock next pid
   == getProductStock transactions pid + Draft.quantity draft)
  /\ (Draft.type draft = exit ->
      getProductStock next pid
      == getProductStock transactions pid - Draft.quantity draft
      /\ 0 <= getProductStock next pid)
  /\ (forall other, other <> pid ->
        getProductStock next other = getProductStock transactions other).
Proof.
  intros Hadd pid. apply addTransaction_accepted in Hadd as [-> Hgate].
  split; [| split].
  - intro Htype. rewrite getProductStock_app. simpl.
    rewrite String.eqb_refl. unfold stockStep. simpl. rewrite Htype.
    reflexivity.
  - intro Htype. specialize (Hgate Htype). rewrite getProductStock_app. simpl.
    rewrite String.eqb_refl. unfold stockStep. simpl. rewrite Htype.
    fold pid in Hgate. split; [reflexivity | lra].
  - intros other Hother. rewrite getProductStock_app. simpl.
    destruct (String.eqb_spec (Draft.productId draft) other) as [Heq | _];
      [| reflexivity].
    exfalso. apply Hother. now rewrite <- Heq.
Qed.

(** X9: an accepted entry raises the current stock of its product by its
    quantity; an accepted exit lowers it by its quantity and leaves it at 0
    or above; the stock of every other product is untouched. *)
Theorem addTransaction_stock transactions newId draft next :
  addTransaction transactions newId draft = inr next ->
  let pid := Draft.productId draft in
  (Draft.type draft = entry ->
   getProductStock next pid
   == getProductStock transactions pid + Draft.quantity draft)
  /\ (Draft.type draft = exit ->
      getProductStock next pid
      == getProductStock transactions pid - Draft.quantity draft
      /\ 0 <= getProductStock next pid)
  /\ (forall other, other <> pid ->
        getProductStock next other = getProductStock transactions other).
Proof. exact (addTransaction_stock_lemma transactions newId draft next). Qed.

Lemma built_stock_nonNegative_lemma transactions :
  built transactions ->
  (forall pid, 0 <= getProductStock transactions pid)
  /\ nonNegative transactions.
Proof.
  induction 1 as [| transactions newId draft next _ [IHstock IHq] Hq Hadd].
  - split; [intro pid; apply Qle_refl | constructor].
  - pose proof (addTransaction_stock_lemma _ _ _ _ Hadd)
      as (Hentry & Hexit & Hother).
    apply addTransaction_accepted in Hadd as [Hnext _].
    split.
    + intro pid.
      destruct (String.eqb_spec pid (Draft.productId draft)) as [-> | Hne].
      * destruct (Draft.type draft) eqn:Htype.
        -- rewrite (Hentry eq_refl).
           specialize (IHstock (Draft.productId draft)). lra.
        -- now apply Hexit.
      * rewrite (Hother pid Hne). apply IHstock.
    + subst next. apply Forall_app. split; [exact IHq |].
      constructor; [exact Hq | constructor].
Qed.
(** X10: in a ledger that grew from the empty one through accepted calls of
    [addTransaction] with quantities that are not negative, no product has
    a negative current stock, and every transaction of the ledger has a
    quantity that is not negative. *)
Theorem built_stock_nonNegative transactions :
  built transactions ->
  (forall pid, 0 <= getProductStock transactions pid)
  /\ nonNegative transactions.
Proof. exact (built_stock_nonNegative_lemma transactions). Qed.

(** X11: an accepted movement of one product does not change whether any
    other product is reported by [getLowStockProducts]; the product moved is
    reported afterwards exactly when its stock with the movement applied is
    at most its [minStock]. *)
Theorem getLowStockProducts_after_addTransaction
    transactions newId draft next products :
  addTransaction transactions newId draft = inr next ->
  forall p, In p products ->
    (Product.id p <> Draft.productId draft ->
     (In p (getLowStockProducts products next)
      <-> In p (getLowStockProducts products transactions)))
    /\ (Product.id p = Draft.productId draft ->
        (In p (getLowStockProducts products next)
         <-> stockStep (getProductStock transactions (Product.id p))
                       (newTransaction newId draft)
             <= Product.minStock p)).
Proof.
  intros Hadd p Hp. apply addTransaction_accepted in Hadd as [-> _].
  unfold getLowStockProducts. rewrite !filter_In, !Qle_bool_iff.
  rewrite getProductStock_app. simpl. split; intro Hid.
  - apply not_eq_sym in Hid. apply String.eqb_neq in Hid. rewrite Hid.
    reflexivity.
  - rewrite <- Hid, String.eqb_refl. tauto.
Qed.

(** * The date filter at its edges *)

Section FilterEdges.
Variable getTime : string -> option Z.

(** X12: a start or end date that does not parse gives the empty list; a
    transaction whose own date does not parse is never returned; and a range
    inside another returns a sub-selection: whatever the narrower range
    returns, the wider range returns too. *)
Theorem getProductTransactions_edges transactions pid startDate endDate :
  ((getTime startDate = None \/ getTime endDate = None) ->
   getProductTransactions getTime transactions pid startDate endDate = [])
  /\ (forall t,
        In t (getProductTransactions getTime transactions pid startDate endDate) ->
        getTime (date t) <> None)
  /\ (forall start' end' s s' e e',
        getTime startDate = Some s -> getTime start' = Some s' ->
        getTime endDate = Some e -> getTime end' = Some e' ->
        (s <= s')%Z -> (e' <= e)%Z ->
        getProductTransactions getTime
          (getProductTransactions getTime transactions pid startDate endDate)
          pid start' end'
        = getProductTransactions getTime transactions pid start' end').
Proof.
  split; [| split].
  - intro Hbad. apply filter_none. intros t _.
    apply andb_false_iff. right. apply not_true_iff_false.
    rewrite inDateRange_between.
    intros (s & d & e & Hs & _ & He & _).
    destruct Hbad as [Hbad | Hbad]; congruence.
  - intros t Ht. unfold getProductTransactions in Ht.
    apply filter_In in Ht as [_ Ht]. apply andb_true_iff in Ht as [_ Ht].
    apply inDateRange_between in Ht as (s & d & e & _ & Hd & _).
    congruence.
  - intros start' end' s s' e e' Hs Hs' He He' Hle1 Hle2.
    unfold getProductTransactions.
    induction transactions as [| t l IH]; simpl; [reflexivity |].
    destruct (String.eqb (productId t) pid) eqn:Hpid; simpl; [| exact IH].
    destruct (inDateRange getTime startDate endDate t) eqn:Hwide;
    destruct (inDateRange getTime start' end' t) eqn:Hnarrow; simpl;
      rewrite ?Hpid, ?Hnarrow; simpl; try (now rewrite IH).
    exfalso. apply inDateRange_between in Hnarrow as (a & d & b & Ha & Hd & Hb & Hin).
    apply not_true_iff_false in Hwide. apply Hwide.
    apply inDateRange_between. exists s, d, e.
    rewrite Hs' in Ha. rewrite He' in Hb.
    injection Ha as <-. injection Hb as <-. repeat split; try assumption; lia.
Qed.
End FilterEdges.

(** * The lists of a valuation *)

(** ** The sort against an order *)

Section SortOrder.
Context {A : Type} (cmp : A -> A -> option Z).
Variable valid : A -> Prop.
Variable R : A -> A -> Prop.
Hypothesis R_after : forall x y, cmp_pos cmp x y = true -> R y x.
Hypothesis R_before :
  forall x y, valid x -> valid y -> cmp_pos cmp x y = false -> R x y.
Hypothesis R_trans : forall x y z, R x y -> R y z -> R x z.

Lemma insert_sorted x l :
  valid x -> Forall valid l ->
  StronglySorted R l -> StronglySorted R (insert cmp x l).
Proof.
  intros Hx Hvalid Hsorted.
  induction Hsorted as [| y l Hl IH Hy]; simpl.
  - repeat constructor.
  - inversion Hvalid as [| ? ? Hvy Hvl]; subst.
    destruct (cmp_pos cmp x y) eqn:Hxy.
    + constructor; [now apply IH |].
      eapply Permutation_Forall; [apply insert_Permutation |].
      constructor; [now apply R_after | exact Hy].
    + constructor; [now constructor |].
      assert (Hxy' : R x y) by now apply R_before.
      constructor; [exact Hxy' |].
      eapply Forall_impl; [| exact Hy]. intros z Hz. now apply (R_trans x y z).
Qed.

Lemma sort_sorted l : Forall valid l -> StronglySorted R (sort cmp l).
Proof.
  induction 1 as [| x l Hx Hl IH]; simpl; [constructor |].
  apply insert_sorted; [exact Hx | now apply sort_Forall | exact IH].
Qed.
End SortOrder.

Section SortStable.
Context {A : Type} (cmp : A -> A -> option Z) (keep : A -> bool).
Hypothesis keep_apart :
  forall x y, keep x = true -> cmp_pos cmp x y = true -> keep y = false.

Lemma filter_insert x l :
  filter keep (insert cmp x l)
  = if keep x then x :: filter keep l else filter keep l.
Proof.
  induction l as [| y l IH]; simpl; [reflexivity |].
  destruct (cmp_pos cmp x y) eqn:Hxy; simpl.
  - rewrite IH. destruct (keep x) eqn:Hx.
    + now rewrite (keep_apart x y Hx Hxy).
    + reflexivity.
  - reflexivity.
Qed.

Lemma filter_sort l : filter keep (sort cmp l) = filter keep l.
Proof.
  induction l as [| x l IH]; simpl; [reflexivity |].
  rewrite filter_insert, IH. reflexivity.
Qed.
End SortStable.

Lemma filter_partition {A : Type} (f g : A -> bool) (l : list A) :
  (forall a, g a = negb (f a)) ->
  Permutation (filter f l ++ filter g l) l.
Proof.
  intro Hfg. induction l as [| x l IH]; simpl; [constructor |].
  rewrite Hfg. destruct (f x); simpl.
  - now apply perm_skip.
  - rewrite <- Permutation_middle. now apply perm_skip.
Qed.

Section ValuationLists.
Variable getTime : string -> option Z.
Variables (transactions : list InventoryTransaction).
Variables (pid startDate endDate : string).

Let seen := inRange getTime transactions pid startDate endDate.
Let cost method :=
  calculateInventoryCost getTime transactions pid method startDate endDate.

Lemma seen_valid : Forall (fun t => getTime (date t) <> None) seen.
Proof.
  apply Forall_forall. intros t Ht. unfold seen, inRange in Ht.
  unfold getProductTransactions in Ht.
  apply filter_In in Ht as [_ Ht]. apply andb_true_iff in Ht as [_ Ht].
  apply inDateRange_between in Ht as (s & d & e & _ & Hd & _). congruence.
Qed.

Lemma byDateAsc_sorted l :
  Forall (fun t => getTime (date t) <> None) l ->
  StronglySorted (notAfter getTime) (sort (byDateAsc getTime) l).
Proof.
  apply sort_sorted; unfold cmp_pos, byDateAsc, notAfter, time_sub, time_leb.
  - intros x y. destruct (getTime (date x)), (getTime (date y));
      try discriminate. intro H. apply Z.ltb_lt in H. apply Z.leb_le. lia.
  - intros x y Hx Hy. destruct (getTime (date x)), (getTime (date y));
      try contradiction. intro H. apply Z.ltb_ge in H. apply Z.leb_le. lia.
  - intros x y z.
    destruct (getTime (date x)), (getTime (date y)), (getTime (date z));
      try discriminate. rewrite !Z.leb_le. lia.
Qed.


Lemma byDate_stable d l :
  filter (atTime getTime d) (sort (byDateAsc getTime) l)
  = filter (atTime getTime d) l
  /\ filter (atTime getTime d) (sort (byDateDesc getTime) l)
     = filter (atTime getTime d) l.
Proof.
  split; apply filter_sort; intros x y;
    unfold atTime, cmp_pos, byDateAsc, byDateDesc, time_sub;
    destruct (getTime (date x)), (getTime (date y)); try discriminate;
      try reflexivity;
    intros Hx Hxy; apply Z.eqb_eq in Hx; apply Z.ltb_lt in Hxy;
    apply Z.eqb_neq; lia.
Qed.


(** X14: every method returns as [entries] the in-range entries in ledger
    order; [exits] is in ledger order under the weighted method, and under
    PEPS and UEPS, where the array is sorted in place, it is in ascending
    date order with equal dates in ledger order; together the two lists hold
    each in-range transaction once. *)
Theorem calculateInventoryCost_lists method :
  entries (cost method) = entriesOf seen
  /\ (method = weighted -> exits (cost method) = exitsOf seen)
  /\ (method <> weighted ->
      exits (cost method) = sort (byDateAsc getTime) (exitsOf seen)
      /\ StronglySorted (notAfter getTime) (exits (cost method))
      /\ forall d, filter (atTime getTime d) (exits (cost method))
                   = filter (atTime getTime d) (exitsOf seen))
  /\ Permutation (entries (cost method) ++ exits (cost method)) seen.
Proof.
  assert (Hvalid : Forall (fun t => getTime (date t) <> None) (exitsOf seen)).
  { pose proof seen_valid as H. rewrite Forall_forall in *.
    intros t Ht. apply H. unfold exitsOf in Ht.
    now apply filter_In in Ht. }
  assert (Hpart : Permutation (entriesOf seen ++ exitsOf seen) seen).
  { apply filter_partition. intro a. unfold isEntry, isExit.
    now destruct (type a). }
  assert (Hentries : entries (cost method) = entriesOf seen).
  { unfold cost, calculateInventoryCost. destruct method; try reflexivity.
    fold (inRange getTime transactions pid startDate endDate). fold seen.
    fold (entriesOf seen). fold (exitsOf seen).
    now destruct (weightedTotals _ _). }
  assert (Hweighted : exits (cost weighted) = exitsOf seen).
  { unfold cost, calculateInventoryCost.
    fold (inRange getTime transactions pid startDate endDate). fold seen.
    fold (entriesOf seen). fold (exitsOf seen).
    now destruct (weightedTotals _ _). }
  split; [exact Hentries | split; [| split]].
  - intros ->. exact Hweighted.
  - intro Hmethod.
    assert (Hsorted : exits (cost method)
                      = sort (byDateAsc getTime) (exitsOf seen))
      by (destruct method; [reflexivity | reflexivity | contradiction]).
    rewrite Hsorted. split; [reflexivity | split].
    + now apply byDateAsc_sorted.
    + intro d. apply byDate_stable.
  - rewrite Hentries. rewrite <- Hpart at 2. apply Permutation_app_head.
    destruct method; try (symmetry; apply sort_Permutation).
    rewrite Hweighted. reflexivity.
Qed.
End ValuationLists.

(** * The figures of a valuation *)









Section ValuationFigures.
Variable getTime : string -> option Z.
Variables (transactions : list InventoryTransaction).
Variables (pid startDate endDate : string).

Let seen := inRange getTime transactions pid startDate endDate.
Let cost method :=
  calculateInventoryCost getTime transactions pid method startDate endDate.

Lemma averageCost_average method :
  averageCost (cost method)
  = average (totalCost (cost method)) (remainingStock (cost method)).
Proof.
  unfold cost, calculateInventoryCost. destruct method; try reflexivity.
  now destruct (weightedTotals _ _).
Qed.

(** In exact arithmetic the average cost times a positive remaining stock
    is the total cost. *)
Lemma averageCost_consistent_exact method :
  (0 < remainingStock (cost method) ->
   averageCost (cost method) * remainingStock (cost method)
   == totalCost (cost method))
  /\ (remainingStock (cost method) <= 0 -> averageCost (cost method) = 0).
Proof.
  rewrite averageCost_average. split; intro H.
  - rewrite average_positive by exact H. field. lra.
  - now apply average_zero.
Qed.


(** X16: a query that selects nothing - a start or end date that does not
    parse, a start later than the end, or a product without transactions -
    returns empty lists and three zeros under every method. *)
Theorem calculateInventoryCost_degenerate method :
  (getTime startDate = None \/ getTime endDate = None
   \/ laterThan getTime startDate endDate
   \/ (forall t, In t transactions -> productId t <> pid)) ->
  cost method = mkBreakdown [] [] 0 0 0.
Proof.
  intro Hnothing.
  assert (Hseen : getProductTransactions getTime transactions pid
                    startDate endDate = []).
  { apply filter_none. intros t Ht. apply not_true_iff_false.
    rewrite andb_true_iff, String.eqb_eq, inDateRange_between.
    intros [Hpid (s & d & e & Hs & _ & He & Hle)].
    destruct Hnothing as [H | [H | [(s' & e' & Hs' & He' & Hlt) | H]]];
      try congruence.
    - rewrite Hs in Hs'. rewrite He in He'.
      injection Hs' as <-. injection He' as <-. lia.
    - now apply (H t Ht). }
  unfold cost, calculateInventoryCost. rewrite Hseen.
  destruct method; reflexivity.
Qed.


End ValuationFigures.

Section LotsLeft.
Variable getTime : string -> option Z.
Variables (transactions : list InventoryTransaction).
Variables (pid startDate endDate : string).
Variable cmp : InventoryTransaction -> InventoryTransaction -> option Z.

Let seen := inRange getTime transactions pid startDate endDate.
Let kept :=
  processExits (sort (byDateAsc getTime) (exitsOf seen))
               (sort cmp (entriesOf seen)).






End LotsLeft.

Section LotFigures.
Variable getTime : string -> option Z.
Variables (transactions : list InventoryTransaction).
Variables (pid startDate endDate : string).

Let seen := inRange getTime transactions pid startDate endDate.
Let cost method :=
  calculateInventoryCost getTime transactions pid method startDate endDate.











(** X23: what one more in-range exit of the product, appended to the
    ledger, does under the weighted method: when no stock remained, nothing
    - the three figures are as before; when stock remained, the remaining
    stock goes down by its quantity (below zero if it is the larger) and the
    total cost by its quantity at the average. *)
Theorem weighted_exit_appended t :
  type t = exit -> productId t = pid ->
  dateBetween getTime startDate endDate t ->
  let before := cost weighted in
  let after :=
    calculateInventoryCost getTime (transactions ++ [t]) pid weighted
                           startDate endDate in
  (remainingStock before <= 0 ->
   remainingStock after = remainingStock before
   /\ totalCost after = totalCost before
   /\ averageCost after = averageCost before)
  /\ (0 < remainingStock before ->
      remainingStock after = remainingStock before - quantity t
      /\ totalCost after
         = totalCost before
           - quantity t * (totalCost before / remainingStock before)).
Proof.
  intros Htype Hpid Hdate. cbv zeta. unfold cost.
  rewrite !remainingStock_weighted, !totalCost_weighted, !averageCost_weighted.
  assert (Hseen : inRange getTime (transactions ++ [t]) pid startDate endDate
                  = seen ++ [t]).
  { unfold seen, inRange, getProductTransactions. rewrite filter_app. simpl.
    apply String.eqb_eq in Hpid. apply inDateRange_between in Hdate.
    now rewrite Hpid, Hdate. }
  rewrite Hseen. fold seen.
  assert (Hentries : entriesOf (seen ++ [t]) = entriesOf seen).
  { unfold entriesOf, isEntry. rewrite filter_app. simpl. rewrite Htype.
    apply app_nil_r. }
  assert (Hexits : exitsOf (seen ++ [t]) = exitsOf seen ++ [t]).
  { unfold exitsOf, isExit. rewrite filter_app. simpl. now rewrite Htype. }
  rewrite Hentries, Hexits. unfold weightedTotals.
  rewrite fold_left_app. cbn [fold_left].
  destruct (fold_left applyExit (exitsOf seen)
              (fold_left addEntry (entriesOf seen) (0, 0))) as [u v].
  cbn [fst snd]. split; intro Hu.
  - rewrite applyExit_skip by exact Hu. now repeat split.
  - rewrite applyExit_take by exact Hu. now split.
Qed.
End LotFigures.

(** * The catalogue and the valuation at work on the samples *)

(** Proves that the ids of a concrete list are pairwise distinct. *)
Ltac distinct :=
  repeat (constructor; [simpl; intuition discriminate |]); constructor.

(** Proves that a time-stamped sample lies in a range of dates. *)
Ltac dated := do 3 eexists; repeat split; evaluated.

(** A third category with a new id keeps the ids distinct. *)
Lemma category_ids_distinct_sample :
  NoDup (categoryIds (addCategory sampleCategories "cat-dairy" dairyDraft)).
Proof.
  assert (H : NoDup (categoryIds sampleCategories)) by distinct.
  destruct (category_ids_distinct sampleCategories H) as (Hadd & _ & _).
  apply Hadd. simpl. intuition discriminate.
Defined.

(** Updating a category that is not in the list changes nothing. *)
Lemma updateCategory_replaces_sample :
  updateCategory [beverages] renamedSnacks = [beverages].
Proof.
  destruct (updateCategory_replaces [beverages] renamedSnacks)
    as (_ & _ & Habsent & _).
  apply Habsent. simpl. intuition discriminate.
Defined.

(** The beverages hold products and cannot be deleted; the snacks can. *)
Lemma deleteCategory_guard_sample :
  deleteCategory sampleProducts sampleCategories "cat-beverages"
  = inl categoryInUse
  /\ ~ In "cat-snacks"%string (categoryIds [beverages]).
Proof.
  destruct (deleteCategory_guard sampleProducts sampleCategories "cat-beverages")
    as (Hiff & _ & _).
  destruct (deleteCategory_guard sampleProducts sampleCategories "cat-snacks")
    as (_ & _ & Hnext).
  split.
  - apply Hiff. exists sampleProduct. split; [now left | reflexivity].
  - now apply (Hnext [beverages]).
Defined.

(** A third product with a new id keeps the ids distinct. *)
Lemma product_ids_distinct_sample :
  NoDup (productIds (addProduct sampleProducts "p3" chipsDraft)).
Proof.
  assert (H : NoDup (productIds sampleProducts)) by distinct.
  destruct (product_ids_distinct sampleProducts H) as (Hadd & _ & _).
  apply Hadd. simpl. intuition discriminate.
Defined.

(** Updating a product that is not in the list changes nothing. *)
Lemma updateProduct_replaces_sample :
  updateProduct [sampleProduct] repricedProduct = [sampleProduct].
Proof.
  destruct (updateProduct_replaces [sampleProduct] repricedProduct)
    as (_ & _ & Habsent & _).
  apply Habsent. simpl. intuition discriminate.
Defined.

(** On the January ledger the product with movements cannot be deleted; the
    one without has stock 0. *)
Lemma deleteProduct_guard_sample :
  deleteProduct januaryLedger sampleProducts "p1" = inl productHasTransactions
  /\ getProductStock januaryLedger "p2" = 0.
Proof.
  destruct (deleteProduct_guard januaryLedger sampleProducts "p1")
    as (Hiff & _ & _).
  destruct (deleteProduct_guard januaryLedger sampleProducts "p2")
    as (_ & _ & Hnext).
  split.
  - apply Hiff. eexists. split; [now left | reflexivity].
  - now apply (Hnext [sampleProduct]).
Defined.

(** After one accepted entry on an empty ledger the product is bound. *)
Lemma deleteProduct_after_addTransaction_sample :
  deleteProduct [newTransaction "t1" decemberEntry] sampleProducts "p1"
  = inl productHasTransactions.
Proof.
  destruct (deleteProduct_after_addTransaction [] "t1" decemberEntry
              [newTransaction "t1" decemberEntry] eq_refl sampleProducts)
    as [Hbound _].
  exact Hbound.
Defined.

(** The product at its minimum is reported, and its row shows it. *)
Lemma getCategoryStock_rows_sample :
  exists row,
    In row (getCategoryStock sampleProducts januaryLedger "cat-beverages")
    /\ StockRow.productId row = "p1"%string
    /\ StockRow.stock row <= 8.
Proof.
  destruct (getCategoryStock_rows sampleProducts januaryLedger "cat-beverages")
    as (_ & _ & Hlow).
  apply (Hlow sampleProduct); [now left | reflexivity |].
  apply filter_In. split; [now left | evaluated].
Defined.

(** An exit of 3 from the 8 units of the January ledger is accepted and
    leaves a stock that is not negative. *)
Lemma addTransaction_stock_sample :
  0 <= getProductStock (januaryLedger ++ [newTransaction "t4" smallExit]) "p1".
Proof.
  assert (H : addTransaction januaryLedger "t4" smallExit
              = inr (januaryLedger ++ [newTransaction "t4" smallExit]))
    by (vm_compute; reflexivity).
  destruct (addTransaction_stock _ _ _ _ H) as (_ & Hexit & _).
  now apply Hexit.
Defined.

(** The ledger with stock carried over was built through the gate. *)
Lemma built_stock_nonNegative_sample :
  built carriedOverLedger
  /\ 0 <= getProductStock carriedOverLedger "p1".
Proof.
  assert (H : built carriedOverLedger).
  { apply (built_append [newTransaction "t1" decemberEntry;
                         newTransaction "t2" januaryEntry] "t3" januaryExit);
      [| evaluated | vm_compute; reflexivity].
    apply (built_append [newTransaction "t1" decemberEntry] "t2" januaryEntry);
      [| evaluated | vm_compute; reflexivity].
    apply (built_append [] "t1" decemberEntry);
      [constructor | evaluated | vm_compute; reflexivity]. }
  split; [exact H |].
  now apply (built_stock_nonNegative carriedOverLedger H).
Defined.

(** An entry for the first product leaves the second, without stock,
    reported as before. *)
Lemma getLowStockProducts_after_addTransaction_sample :
  In otherProduct
     (getLowStockProducts sampleProducts
        (januaryLedger ++ [newTransaction "t4" januaryEntry])).
Proof.
  assert (H : addTransaction januaryLedger "t4" januaryEntry
              = inr (januaryLedger ++ [newTransaction "t4" januaryEntry]))
    by (vm_compute; reflexivity).
  destruct (getLowStockProducts_after_addTransaction _ _ _ _ sampleProducts H
              otherProduct) as [Hother _]; [right; now left |].
  apply Hother; [discriminate |].
  apply filter_In. split; [right; now left | evaluated].
Defined.

(** A start date that does not parse selects nothing. *)
Lemma getProductTransactions_edges_sample :
  getProductTransactions isoTime januaryLedger "p1" "enero" "2024-01-31" = [].
Proof.
  destruct (getProductTransactions_edges isoTime januaryLedger "p1"
              "enero" "2024-01-31") as (Hbad & _ & _).
  apply Hbad. left. reflexivity.
Defined.

(** The exits returned under PEPS on the January ledger are in date
    order. *)
Lemma calculateInventoryCost_lists_sample :
  StronglySorted (notAfter isoTime) (exits (january PEPS)).
Proof.
  destruct (calculateInventoryCost_lists isoTime januaryLedger "p1"
              "2024-01-01" "2024-01-31" PEPS) as (_ & _ & Hsorted & _).
  now apply Hsorted.
Defined.


(** An inverted range gives the empty breakdown. *)
Lemma calculateInventoryCost_degenerate_sample :
  calculateInventoryCost isoTime januaryLedger "p1" UEPS
                         "2024-02-01" "2024-01-01"
  = mkBreakdown [] [] 0 0 0.
Proof.
  apply calculateInventoryCost_degenerate. right. right. left.
  do 2 eexists. repeat split; evaluated.
Defined.







(** One more exit after the stock is sold out changes nothing. *)
Lemma weighted_exit_appended_sample :
  remainingStock (calculateInventoryCost isoTime (soldOutLedger ++ [lateExit])
                    "p1" weighted "2024-01-01" "2024-01-31")
  = remainingStock (soldOut weighted).
Proof.
  assert (Hdate : dateBetween isoTime "2024-01-01" "2024-01-31" lateExit)
    by dated.
  destruct (weighted_exit_appended isoTime soldOutLedger "p1"
              "2024-01-01" "2024-01-31" lateExit eq_refl eq_refl Hdate)
    as [Hout _].
  apply Hout. evaluated.
Defined.

(** * Valuation and current stock *)

Section ValuationAndStock.
Variable getTime : string -> option Z.
Variables (transactions : list InventoryTransaction).
Variables (pid startDate endDate : string).

Let seen := inRange getTime transactions pid startDate endDate.
Let cost method :=
  calculateInventoryCost getTime transactions pid method startDate endDate.




End ValuationAndStock.


(** * Where rounding separates the code from exact arithmetic

    The functions of [Binary64] evaluated on decimal ledgers. *)

Section Rounding.
Import PrimFloat.

(** C3 as stated fails on doubles: entries of 0.2, 0.5 and 0.2 units give a
    stock of 0.8999999999999999, and the same entries stored as 0.2, 0.2 and
    0.5 give 0.9. *)
Lemma getProductStock_reordered_differs :
  Permutation Binary64.tenthsLedger Binary64.tenthsReordered
  /\ PrimFloat.ltb (Binary64.getProductStock Binary64.tenthsLedger "p1")
                   (Binary64.getProductStock Binary64.tenthsReordered "p1")
     = true.
Proof.
  split; [| vm_compute; reflexivity].
  apply perm_skip, perm_swap.
Qed.

(** C1 as stated fails on doubles: with entries of 0.1, 0.2 and 0.2 units
    and then an exit of 0.5, no exit is larger than the stock on hand, and
    yet PEPS and the weighted method return 0 while UEPS returns
    2.7755575615628914e-17. *)
Lemma conservation_fails_on_tenths :
  Binary64.neverOversold isoTime
    (Binary64.getProductTransactions isoTime Binary64.halfLedger "p1"
                                     "2024-01-01" "2024-01-31") = true
  /\ PrimFloat.ltb (Binary64.remainingStock (Binary64.half PEPS))
                   (Binary64.remainingStock (Binary64.half UEPS)) = true
  /\ PrimFloat.ltb (Binary64.remainingStock (Binary64.half weighted))
                   (Binary64.remainingStock (Binary64.half UEPS)) = true.
Proof.
  repeat split; vm_compute; reflexivity.
Qed.

(** C10 as stated fails on doubles: on the same ledger the entries less the
    exits are 0, PEPS returns 0, and UEPS returns a positive remaining
    stock. *)
Lemma fifo_lifo_remainingStock_differ :
  PrimFloat.eqb
    (PrimFloat.sub
       (Binary64.sumQuantity (Binary64.entries (Binary64.half PEPS)))
       (Binary64.sumQuantity (Binary64.exits (Binary64.half PEPS))))
    PrimFloat.zero = true
  /\ PrimFloat.eqb (Binary64.remainingStock (Binary64.half PEPS))
                   PrimFloat.zero = true
  /\ PrimFloat.ltb PrimFloat.zero
                   (Binary64.remainingStock (Binary64.half UEPS)) = true.
Proof.
  repeat split; vm_compute; reflexivity.
Qed.

(** C7 as stated fails on doubles: with one unit each at 1.1, 1.2 and 1.3,
    in this date order and without an exit, the unit costs rise and yet the
    total cost under PEPS, 3.5999999999999996, is below the total cost under
    UEPS, 3.6. *)
Lemma fifo_lifo_totalCost_rounding :
  Binary64.costsNonDecreasing isoTime
    (Binary64.getProductTransactions isoTime Binary64.risingLedger "p1"
                                     "2024-01-01" "2024-01-31") = true
  /\ PrimFloat.ltb (Binary64.totalCost (Binary64.risingCosts PEPS))
                   (Binary64.totalCost (Binary64.risingCosts UEPS)) = true.
Proof.
  split; vm_compute; reflexivity.
Qed.

(** On the whole numbers of the January ledger the doubles return the
    figures of the exact reading: 8, 56 and 7 under PEPS, 8, 40 and 5 under
    UEPS, 8, 48 and 6 under the weighted method. *)
Lemma january_on_doubles :
  map (fun method =>
         (Binary64.remainingStock (Binary64.january method),
          Binary64.totalCost (Binary64.january method),
          Binary64.averageCost (Binary64.january method)))
      [PEPS; UEPS; weighted]
  = [ (8, 56, 7); (8, 40, 5); (8, 48, 6) ]%float.
Proof. vm_compute. reflexivity. Qed.
End Rounding.
